(** * ts-rest express adapter: route binding and request validation

    A shallow embedding of [libs/ts-rest/express/src/lib/ts-rest-express.ts]:
    the router tree walker [recursivelyApplyExpressRouter], the per-route
    registration [initializeExpressRoute], the context middleware, the
    request validation pipeline [validateRequest] and the main request
    handler, followed by the properties the specification states about
    them.

    Side effects are explicit.  Registration threads a [Host] (the routes
    registered on the express router and the console lines written)
    and returns it together with an [Outcome], because a thrown error
    leaves the effects performed so far in place.  Request handling
    produces the list of observable [Event]s in the order they occur. *)

From Stdlib Require Import List String ZArith Bool Lia Permutation.
Import ListNotations.
Open Scope string_scope.
Open Scope list_scope.

Set Warnings "-register-all".

(** ** Values, shapes and property lookup *)

(** Run-time values carried by requests, responses and thrown errors. *)
Inductive value : Type :=
| VUndefined
| VNull
| VBool (b : bool)
| VNum (n : Z)
| VStr (s : string)
| VArr (items : list value)
| VObj (props : list (string * value)).

(** Shape descriptors handed to the validator. *)
Inductive shape : Type :=
| ShString
| ShNumber
| ShBoolean
| ShObject (fields : list (string * shape)).

(** [obj[key]] on an object given by its own enumerable properties, in
    enumeration order; [None] is [undefined]. *)
Fixpoint lookup {A : Type} (key : string) (props : list (string * A)) : option A :=
  match props with
  | [] => None
  | (k, v) :: rest => if String.eqb key k then Some v else lookup key rest
  end.

Definition keys {A : Type} (props : list (string * A)) : list string :=
  map fst props.

(** ** Schema model *)

Record AppRoute : Type := {
  method : string;
  path : string;
  pathParams : option shape;
  query : option shape;
  headers : option shape;
  body : option shape;          (* [None]: no [body] key, [null] is validated against *)
  responses : list (Z * shape)  (* status code to response shape *)
}.

Inductive AppRouter : Type :=
| Route (route : AppRoute)
| Router (children : list (string * AppRouter)).

(** ** Requests, handlers and implementation trees *)

Record Request : Type := {
  req_params : value;
  req_headers : value;
  req_query : value;
  req_body : value;
  req_files : value;
  req_file : value;
  tsRest : option (AppRoute * value)   (* [req.tsRest = { route, context }] *)
}.

Record HandlerArgs : Type := {
  arg_params : value;
  arg_body : value;
  arg_query : value;
  arg_headers : value;
  arg_files : value;
  arg_file : value;
  arg_req : Request
}.

Record HandlerResult : Type := {
  status : value;
  result_body : value
}.

(** What awaiting a call of the route implementation gives. *)
Inductive HandlerOutcome : Type :=
| Returns (result : HandlerResult)
| Throws (e : value)       (* synchronous throw *)
| Rejects (e : value).     (* the returned promise rejects *)

Definition Handler : Type := HandlerArgs -> HandlerOutcome.

(** What awaiting a call of the context function gives. *)
Inductive ContextOutcome : Type :=
| ContextResolves (context : value)
| ContextThrows (e : value)
| ContextRejects (e : value).

Definition ContextFunction : Type := Request -> AppRoute -> ContextOutcome.

(** A user middleware either passes the (possibly changed) request on with
    [next()], reports an error with [next(e)], or ends the exchange itself. *)
Inductive MiddlewareOutcome : Type :=
| MwNext (req : Request)
| MwNextError (e : value)
| MwEnd.

Definition Middleware : Type := Request -> MiddlewareOutcome.

(** [RecursiveRouterObj | AppRouteImplementationOrOptions]: a function, an
    options object [{ handler, middleware? }], or an object of nested
    implementations listed in [for ... in] order. *)
Inductive RouterObj : Type :=
| ImplFn (h : Handler)
| ImplOptions (h : Handler) (middleware : option (list Middleware))
| ImplRouter (children : list (string * RouterObj)).

Record TsRestExpressOptions : Type := {
  logInitialization : bool;
  jsonQuery : bool;
  responseValidation : bool;
  globalMiddleware : option (list Middleware)
}.

Definition default_options : TsRestExpressOptions :=
  {| logInitialization := true;
     jsonQuery := false;
     responseValidation := false;
     globalMiddleware := None |}.

(** The object returned by [initServer().router] / [.context(..).router]:
    the implementation tree and, under the [RouterOptions] symbol, the
    context function.  A symbol key is not visited by [for ... in]. *)
Record CompleteRouterObj : Type := {
  tree : RouterObj;
  routerOptions : option ContextFunction
}.

Definition initServer_router (args : RouterObj) : CompleteRouterObj :=
  {| tree := args; routerOptions := None |}.

Definition initServer_context (contextFunction : ContextFunction) (args : RouterObj)
  : CompleteRouterObj :=
  {| tree := args; routerOptions := Some contextFunction |}.

(** ** The host router and registration outcomes *)

(** The elements of a registered handler chain. *)
Inductive RequestHandler : Type :=
| ContextMiddleware (contextFunction : option ContextFunction) (route : AppRoute)
| UserMiddleware (m : Middleware)
| MainReqHandler (handler : option Handler) (schema : AppRoute)
                 (options : TsRestExpressOptions).

(** The method-specific registration calls of [IRouter]. *)
Inductive Verb : Type := app_get | app_delete | app_post | app_put | app_patch.

Definition verb_method (v : Verb) : string :=
  match v with
  | app_get => "GET"
  | app_delete => "DELETE"
  | app_post => "POST"
  | app_put => "PUT"
  | app_patch => "PATCH"
  end.

Record Registration : Type := {
  reg_verb : Verb;
  reg_path : string;
  reg_handlers : list RequestHandler
}.

Record Host : Type := {
  registered : list Registration;   (* calls made on [app], oldest first *)
  console : list string             (* lines written by [console.log] *)
}.

Definition register (r : Registration) (w : Host) : Host :=
  {| registered := registered w ++ [r]; console := console w |}.

Definition console_log (line : string) (w : Host) : Host :=
  {| registered := registered w; console := console w ++ [line] |}.

Inductive InitError : Type :=
| ExpectedAppRouterButReceivedAppRoute
| ExpectedAppRouteButReceivedAppRouter
| TypeErrorSchemaUndefined
| TypeErrorMiddlewareNotIterable.

Inductive Outcome : Type :=
| Done
| Threw (e : InitError).

(** The two errors the walker raises itself. *)
Definition StructuralMismatch (e : InitError) : Prop :=
  e = ExpectedAppRouterButReceivedAppRoute \/
  e = ExpectedAppRouteButReceivedAppRouter.

(** ** Duck typing of implementation nodes *)

(** [typeof router === 'function'] *)
Definition is_function (router : RouterObj) : bool :=
  match router with
  | ImplFn _ => true
  | _ => false
  end.

(** [typeof router === 'object'] *)
Definition is_object (router : RouterObj) : bool := negb (is_function router).

(** [router?.handler] when [typeof] of it is ['function'].  An object of
    nested implementations has a [handler] property when one of its keys
    is [handler]. *)
Definition handler_fn (router : RouterObj) : option Handler :=
  match router with
  | ImplFn _ => None
  | ImplOptions h _ => Some h
  | ImplRouter children =>
      match lookup "handler" children with
      | Some (ImplFn h) => Some h
      | _ => None
      end
  end.

Definition has_handler_fn (router : RouterObj) : bool :=
  match handler_fn router with
  | Some _ => true
  | None => false
  end.

(** Modelled from the spec: [isAppRouteImplementation] of [./types], which
    tells a callable implementation from an options object. *)
Definition isAppRouteImplementation (router : RouterObj) : bool :=
  is_function router.

(** Modelled from the spec: [isAppRoute] of [@ts-rest/core], which tells a
    leaf Route from a Router.  On [undefined], the value of [schema[key]]
    for a key the schema lacks, the call is taken to raise a TypeError,
    as a property test on [undefined] does; [None] stands for that throw. *)
Definition isAppRoute (schema : option AppRouter) : option bool :=
  match schema with
  | None => None
  | Some (Route _) => Some true
  | Some (Router _) => Some false
  end.

(** [schema[key]] *)
Definition schema_get (schema : option AppRouter) (key : string) : option AppRouter :=
  match schema with
  | Some (Router children) => lookup key children
  | _ => None
  end.

(** ** recursivelyApplyExpressRouter *)

Definition ProcessRoute : Type := RouterObj -> AppRoute -> Host -> Host * Outcome.

Fixpoint recursivelyApplyExpressRouter (schema : option AppRouter)
    (router : RouterObj) (processRoute : ProcessRoute) (w : Host)
    {struct router} : Host * Outcome :=
  if is_object router && negb (has_handler_fn router) then
    match router with
    | ImplRouter children =>
        (fix each_key (entries : list (string * RouterObj)) (w : Host)
             {struct entries} : Host * Outcome :=
           match entries with
           | [] => (w, Done)
           | (key, child) :: rest =>
               match isAppRoute schema with
               | None => (w, Threw TypeErrorSchemaUndefined)
               | Some true => (w, Threw ExpectedAppRouterButReceivedAppRoute)
               | Some false =>
                   match recursivelyApplyExpressRouter (schema_get schema key)
                           child processRoute w with
                   | (w', Done) => each_key rest w'
                   | (w', Threw e) => (w', Threw e)
                   end
               end
           end) children w
    | _ => (w, Done)
    end
  else if is_function router || has_handler_fn router then
    match isAppRoute schema with
    | None => (w, Threw TypeErrorSchemaUndefined)
    | Some false => (w, Threw ExpectedAppRouteButReceivedAppRouter)
    | Some true =>
        match schema with
        | Some (Route route) => processRoute router route w
        | _ => (w, Done)
        end
    end
  else (w, Done).

(** ** initializeExpressRoute *)

(** [implementationOrOptions.middleware] as the spread in
    [handlers.push(...middleware)] sees it. *)
Inductive MiddlewareProp : Type :=
| MwAbsent                          (* undefined: the push is skipped *)
| MwArray (ms : list Middleware)
| MwNotIterable.                    (* a nested implementation: the spread throws *)

Definition middleware_prop (router : RouterObj) : MiddlewareProp :=
  match router with
  | ImplFn _ => MwAbsent
  | ImplOptions _ None => MwAbsent
  | ImplOptions _ (Some ms) => MwArray ms
  | ImplRouter children =>
      match lookup "middleware" children with
      | None => MwAbsent
      | Some _ => MwNotIterable
      end
  end.

(** [isAppRouteImplementation(i) ? i : i.handler]; [None] when the result is
    not callable. *)
Definition route_handler (implementationOrOptions : RouterObj) : option Handler :=
  match implementationOrOptions with
  | ImplFn h => Some h
  | _ => handler_fn implementationOrOptions
  end.

(** The [switch (schema.method)]; [None] when no case matches. *)
Definition verb_of_method (m : string) : option Verb :=
  if String.eqb m "GET" then Some app_get
  else if String.eqb m "DELETE" then Some app_delete
  else if String.eqb m "POST" then Some app_post
  else if String.eqb m "PUT" then Some app_put
  else if String.eqb m "PATCH" then Some app_patch
  else None.

Definition log_line (schema : AppRoute) : string :=
  ("[ts-rest] Initialized " ++ method schema ++ " " ++ path schema)%string.

Definition global_handlers (options : TsRestExpressOptions) : list RequestHandler :=
  match globalMiddleware options with
  | Some ms => map UserMiddleware ms
  | None => []
  end.

Definition initializeExpressRoute (implementationOrOptions : RouterObj)
    (schema : AppRoute) (options : TsRestExpressOptions)
    (contextFunction : option ContextFunction) (w : Host) : Host * Outcome :=
  let w := if logInitialization options then console_log (log_line schema) w else w in
  let handler := route_handler implementationOrOptions in
  let mainReqHandler := MainReqHandler handler schema options in
  let handlers := [ContextMiddleware contextFunction schema] in
  let handlers := handlers ++ global_handlers options in
  let pushed :=
    if isAppRouteImplementation implementationOrOptions then Some handlers
    else match middleware_prop implementationOrOptions with
         | MwAbsent => Some handlers
         | MwArray ms => Some (handlers ++ map UserMiddleware ms)
         | MwNotIterable => None
         end in
  match pushed with
  | None => (w, Threw TypeErrorMiddlewareNotIterable)
  | Some handlers =>
      let handlers := handlers ++ [mainReqHandler] in
      match verb_of_method (method schema) with
      | Some v =>
          (register {| reg_verb := v; reg_path := path schema;
                       reg_handlers := handlers |} w, Done)
      | None => (w, Done)
      end
  end.

(** ** createExpressEndpoints *)

Definition createExpressEndpoints (schema : AppRouter) (router : CompleteRouterObj)
    (options : TsRestExpressOptions) (app : Host) : Host * Outcome :=
  recursivelyApplyExpressRouter (Some schema) (tree router)
    (fun implementation innerSchema =>
       initializeExpressRoute implementation innerSchema options
         (routerOptions router))
    app.

(** ** Request handling: outcomes and observable events *)

(** The tagged result of [checkZodSchema]. *)
Inductive ValidationOutcome : Type :=
| Success (data : value)
| Failure (error : value).

(** [validateResponse] returns the checked response or throws. *)
Inductive ResponseCheck : Type :=
| ResponseOk (body : value)
| ResponseThrows (e : value).

Inductive Step : Type := Params | Headers | Query | Body.

(** What [Number(x)] can be: an integer, or one of the other numbers (NaN,
    the infinities, a fraction), kept as the text [String] gives it. *)
Inductive jsnumber : Type :=
| Integer (n : Z)
| NonInteger (text : string).

Inductive Event : Type :=
| ContextCalled (route : AppRoute)                 (* [contextFunction({ req, route })] *)
| Attached (route : AppRoute) (context : value)    (* [req.tsRest = { route, context }] *)
| Validated (step : Step) (data : value) (sh : option shape)
            (passThroughExtraKeys : bool)          (* a call of [checkZodSchema] *)
| HandlerInvoked (args : HandlerArgs)              (* the route implementation is called *)
| ResponseValidated (responseType : option shape) (statusCode : jsnumber) (body : value)
| Sent (statusCode : Z) (body : value)             (* [res.status(c).send(b)] *)
| SentJson (statusCode : jsnumber) (body : value)  (* [res.status(c).json(b)] returned *)
| JsonThrew (statusCode : jsnumber) (body : value) (e : value)
                                                   (* [res.status(c).json(b)] threw [e] *)
| MiddlewareCalled                                 (* a user middleware is entered *)
| NextCalled                                       (* [next()] *)
| NextError (e : value)                            (* [next(e)]: the host error pipeline *)
| UnhandledRejection (e : value).                  (* a promise nobody awaits rejects *)

Record ValidationResults : Type := {
  paramsResult : value;
  headersResult : value;
  queryResult : value;
  bodyResult : value
}.

Definition set_tsRest (req : Request) (route : AppRoute) (context : value) : Request :=
  {| req_params := req_params req;
     req_headers := req_headers req;
     req_query := req_query req;
     req_body := req_body req;
     req_files := req_files req;
     req_file := req_file req;
     tsRest := Some (route, context) |}.

(** [schema.responses[statusCode]] *)
Fixpoint declared_under (code : Z) (rs : list (Z * shape)) : option shape :=
  match rs with
  | [] => None
  | (c, sh) :: rest => if Z.eqb code c then Some sh else declared_under code rest
  end.

Definition response_type (statusCode : jsnumber) (rs : list (Z * shape)) : option shape :=
  match statusCode with
  | Integer code => declared_under code rs
  | NonInteger _ => None     (* the responses are keyed by integer status codes *)
  end.

(** The error raised by calling something that is not a function. *)
Definition not_a_function : value := VStr "TypeError: handler is not a function".

Section Pipeline.

(** The helpers imported from [@ts-rest/core], the host language's
    [Number] coercion and the host's [res.status(c).json(b)], which gives
    [None] when it returns and [Some e] when it throws [e]. *)
Variable checkZodSchema : value -> option shape -> bool -> ValidationOutcome.
Variable parseJsonQueryObject : value -> value.
Variable validateResponse : option shape -> jsnumber -> value -> ResponseCheck.
Variable Number : value -> jsnumber.
Variable json : jsnumber -> value -> option value.

(** The value handed to the query validation. *)
Definition query_input (options : TsRestExpressOptions) (req : Request) : value :=
  if jsonQuery options then parseJsonQueryObject (req_query req) else req_query req.

(** [validateRequest]: [None] when a 400 response was sent. *)
Definition validateRequest (req : Request) (schema : AppRoute)
    (options : TsRestExpressOptions) : list Event * option ValidationResults :=
  let ev_params := Validated Params (req_params req) (pathParams schema) true in
  match checkZodSchema (req_params req) (pathParams schema) true with
  | Failure error => ([ev_params; Sent 400 error], None)
  | Success params_data =>
      let ev_headers := Validated Headers (req_headers req) (headers schema) true in
      match checkZodSchema (req_headers req) (headers schema) true with
      | Failure error => ([ev_params; ev_headers; Sent 400 error], None)
      | Success headers_data =>
          let query_value := query_input options req in
          let ev_query := Validated Query query_value (query schema) false in
          match checkZodSchema query_value (query schema) false with
          | Failure error => ([ev_params; ev_headers; ev_query; Sent 400 error], None)
          | Success query_data =>
              let ev_body := Validated Body (req_body req) (body schema) false in
              match checkZodSchema (req_body req) (body schema) false with
              | Failure error =>
                  ([ev_params; ev_headers; ev_query; ev_body; Sent 400 error], None)
              | Success body_data =>
                  ([ev_params; ev_headers; ev_query; ev_body],
                   Some {| paramsResult := params_data;
                           headersResult := headers_data;
                           queryResult := query_data;
                           bodyResult := body_data |})
              end
          end
      end
  end.

(** The object the route implementation is called with. *)
Definition handler_args (results : ValidationResults) (req : Request) : HandlerArgs :=
  {| arg_params := paramsResult results;
     arg_body := bodyResult results;
     arg_query := queryResult results;
     arg_headers := headersResult results;
     arg_files := req_files req;
     arg_file := req_file req;
     arg_req := req |}.

(** [return res.status(statusCode).json(body)] inside the [try]: an error
    the call throws is caught and handed to [next]. *)
Definition send_json (statusCode : jsnumber) (body : value) : list Event :=
  match json statusCode body with
  | None => [SentJson statusCode body]
  | Some e => [JsonThrew statusCode body e; NextError e]
  end.

(** What follows a normal return of the route implementation. *)
Definition respond (schema : AppRoute) (options : TsRestExpressOptions)
    (result : HandlerResult) : list Event :=
  let statusCode := Number (status result) in
  if responseValidation options then
    let responseType := response_type statusCode (responses schema) in
    ResponseValidated responseType statusCode (result_body result) ::
    match validateResponse responseType statusCode (result_body result) with
    | ResponseOk checked => send_json statusCode checked
    | ResponseThrows e => [NextError e]
    end
  else send_json statusCode (result_body result).

(** [mainReqHandler] of [initializeExpressRoute]. *)
Definition mainReqHandler (handler : option Handler) (schema : AppRoute)
    (options : TsRestExpressOptions) (req : Request) : list Event :=
  match validateRequest req schema options with
  | (trace, None) => trace
  | (trace, Some validationResults) =>
      let args := handler_args validationResults req in
      trace ++
      match handler with
      | None => [NextError not_a_function]
      | Some handler =>
          HandlerInvoked args ::
          match handler args with
          | Returns result => respond schema options result
          | Throws e => [NextError e]
          | Rejects e => [NextError e]
          end
      end
  end.

(** [contextMiddleware]: the request passed on when [next()] is reached. *)
Definition contextMiddleware (contextFunction : option ContextFunction)
    (route : AppRoute) (req : Request) : list Event * option Request :=
  match contextFunction with
  | None =>
      ([Attached route VUndefined; NextCalled], Some (set_tsRest req route VUndefined))
  | Some f =>
      match f req route with
      | ContextResolves context =>
          ([ContextCalled route; Attached route context; NextCalled],
           Some (set_tsRest req route context))
      | ContextThrows e => ([ContextCalled route; UnhandledRejection e], None)
      | ContextRejects e => ([ContextCalled route; UnhandledRejection e], None)
      end
  end.

(** One element of a chain applied to a request: its events and the
    request handed to the next element, if [next()] was called. *)
Definition run_handler (h : RequestHandler) (req : Request)
  : list Event * option Request :=
  match h with
  | ContextMiddleware contextFunction route =>
      contextMiddleware contextFunction route req
  | UserMiddleware m =>
      match m req with
      | MwNext req' => ([MiddlewareCalled; NextCalled], Some req')
      | MwNextError e => ([MiddlewareCalled; NextError e], None)
      | MwEnd => ([MiddlewareCalled], None)
      end
  | MainReqHandler handler schema options =>
      (mainReqHandler handler schema options req, None)
  end.

(** The host router running a registered chain on a request: the events
    in order and the request as it stands at the end. *)
Fixpoint dispatch (handlers : list RequestHandler) (req : Request)
  : list Event * Request :=
  match handlers with
  | [] => ([], req)
  | h :: rest =>
      match run_handler h req with
      | (trace, Some req') =>
          let (trace', final) := dispatch rest req' in (trace ++ trace', final)
      | (trace, None) => (trace, req)
      end
  end.

End Pipeline.

(** ** The helpers of [@ts-rest/core] *)

Module Core.

Definition mentions (key : string) (ks : list string) : bool :=
  existsb (String.eqb key) ks.

(** Validation of a value against a declared shape.  In tolerant mode
    unknown extra keys of an object are accepted and kept; in strict
    mode they are rejected. *)
Fixpoint check (tolerant : bool) (sh : shape) (v : value) {struct sh}
  : ValidationOutcome :=
  match sh with
  | ShString =>
      match v with VStr _ => Success v | _ => Failure (VStr "Expected string") end
  | ShNumber =>
      match v with VNum _ => Success v | _ => Failure (VStr "Expected number") end
  | ShBoolean =>
      match v with VBool _ => Success v | _ => Failure (VStr "Expected boolean") end
  | ShObject fields =>
      match v with
      | VObj props =>
          let fix check_fields (fs : list (string * shape))
            : list (string * value) + value :=
            match fs with
            | [] => inl []
            | (k, s) :: rest =>
                match lookup k props with
                | None => inr (VStr ("Required: " ++ k)%string)
                | Some x =>
                    match check tolerant s x with
                    | Failure e => inr e
                    | Success d =>
                        match check_fields rest with
                        | inl ds => inl ((k, d) :: ds)
                        | inr e => inr e
                        end
                    end
                end
            end in
          match check_fields fields with
          | inr e => Failure e
          | inl parsed =>
              let extras :=
                filter (fun kv => negb (mentions (fst kv) (keys fields))) props in
              match extras with
              | [] => Success (VObj parsed)
              | _ :: _ =>
                  if tolerant then Success (VObj (parsed ++ extras))
                  else Failure (VStr "Unrecognized key(s) in object")
              end
          end
      | _ => Failure (VStr "Expected object")
      end
  end.

(** Modelled from the spec: [checkZodSchema] of [@ts-rest/core], the
    validator adapter: given a candidate value and a shape it returns
    success with the parsed value or failure with the error detail; an
    absent shape accepts the value without further checks; with
    [passThroughExtraKeys] unknown extra keys are tolerated. *)
Definition checkZodSchema (data : value) (schema : option shape)
    (passThroughExtraKeys : bool) : ValidationOutcome :=
  match schema with
  | None => Success data
  | Some sh => check passThroughExtraKeys sh data
  end.

(** One query value: a string is parsed as JSON and kept as it is when
    parsing fails.  [JSON_parse] is the host's [JSON.parse], [None]
    standing for its SyntaxError. *)
Definition json_or_raw (JSON_parse : string -> option value) (v : value) : value :=
  match v with
  | VStr raw =>
      match JSON_parse raw with
      | Some parsed => parsed
      | None => VStr raw
      end
  | other => other
  end.

(** Modelled from the spec: [parseJsonQueryObject] of [@ts-rest/core]:
    each query string value is parsed as JSON, falling back to the raw
    string when parsing fails. *)
Definition parseJsonQueryObject (JSON_parse : string -> option value)
    (query : value) : value :=
  match query with
  | VObj props => VObj (map (fun kv => (fst kv, json_or_raw JSON_parse (snd kv))) props)
  | other => other
  end.

(** Modelled from the spec: [validateResponse] of [@ts-rest/core]: the
    body is validated against the response shape in strict mode; a body
    that fails is not returned, the validator's error is thrown. *)
Definition validateResponse (responseType : option shape) (statusCode : jsnumber)
    (body : value) : ResponseCheck :=
  match checkZodSchema body responseType false with
  | Success data => ResponseOk data
  | Failure error => ResponseThrows error
  end.

End Core.

(** ** Shapes of tree pairs *)

(** The implementation leaves in key enumeration order, each with the Route
    found under the same keys of the schema tree. *)
Fixpoint leaves_in_order (schema : AppRouter) (router : RouterObj) {struct router}
  : list (AppRoute * RouterObj) :=
  match router with
  | ImplRouter children =>
      match schema with
      | Router cs =>
          flat_map (fun kc =>
                      match lookup (fst kc) cs with
                      | Some s => leaves_in_order s (snd kc)
                      | None => []
                      end) children
      | Route _ => []
      end
  | leaf =>
      match schema with
      | Route r => [(r, leaf)]
      | Router _ => []
      end
  end.

(** The leaf Routes of a schema tree. *)
Fixpoint routes_of (schema : AppRouter) : list AppRoute :=
  match schema with
  | Route r => [r]
  | Router cs => flat_map (fun kc => routes_of (snd kc)) cs
  end.

(** No object of nested implementations has a key [handler] bound to a
    callable, so that none of them passes for an options object. *)
Fixpoint plain_keys (router : RouterObj) : bool :=
  match router with
  | ImplRouter children =>
      negb (has_handler_fn router) && forallb (fun kc => plain_keys (snd kc)) children
  | _ => true
  end.

(** Every key of an object of nested implementations is a key of the
    schema Router it is walked against. *)
Fixpoint covered (schema : AppRouter) (router : RouterObj) {struct router} : bool :=
  match router with
  | ImplRouter children =>
      match schema with
      | Router cs =>
          forallb (fun kc =>
                     match lookup (fst kc) cs with
                     | Some s => covered s (snd kc)
                     | None => false
                     end) children
      | Route _ => true
      end
  | _ => true
  end.

Definition is_nil {A : Type} (l : list A) : bool :=
  match l with
  | [] => true
  | _ :: _ => false
  end.

(** Some key path holds a leaf in one tree and a sub-tree in the other.
    With [with_empty = false] an implementation sub-tree facing a Route
    counts only when it has at least one key. *)
Fixpoint mismatch (with_empty : bool) (schema : AppRouter) (router : RouterObj)
    {struct router} : bool :=
  match router with
  | ImplRouter children =>
      match schema with
      | Route _ => with_empty || negb (is_nil children)
      | Router cs =>
          existsb (fun kc =>
                     match lookup (fst kc) cs with
                     | Some s => mismatch with_empty s (snd kc)
                     | None => false
                     end) children
      end
  | _ =>
      match schema with
      | Route _ => false
      | Router _ => true
      end
  end.

Fixpoint distinct (ks : list string) : bool :=
  match ks with
  | [] => true
  | k :: rest => negb (Core.mentions k rest) && distinct rest
  end.

Definition same_keys (ks ks' : list string) : bool :=
  forallb (fun k => Core.mentions k ks') ks && forallb (fun k => Core.mentions k ks) ks'.

(** The two trees have identical shape: Routes face callables or options
    objects, Routers face objects of nested implementations with the same
    keys. *)
Fixpoint same_shape (schema : AppRouter) (router : RouterObj) {struct router} : bool :=
  match router with
  | ImplRouter children =>
      match schema with
      | Route _ => false
      | Router cs =>
          distinct (keys cs) && distinct (keys children) &&
          same_keys (keys cs) (keys children) &&
          forallb (fun kc =>
                     match lookup (fst kc) cs with
                     | Some s => same_shape s (snd kc)
                     | None => false
                     end) children
      end
  | _ =>
      match schema with
      | Route _ => true
      | Router _ => false
      end
  end.

Definition supported_methods : list string := ["GET"; "POST"; "PUT"; "PATCH"; "DELETE"].

(** Every Route of the schema declares one of the five supported verbs. *)
Fixpoint supported (schema : AppRouter) : bool :=
  match schema with
  | Route r => Core.mentions (method r) supported_methods
  | Router cs => forallb (fun kc => supported (snd kc)) cs
  end.

(** The per-route middleware of a leaf implementation. *)
Definition per_route_handlers (leaf : RouterObj) : list RequestHandler :=
  match leaf with
  | ImplOptions _ (Some ms) => map UserMiddleware ms
  | _ => []
  end.

(** The Host after [initializeExpressRoute] ran on each leaf in turn. *)
Definition initialize_all (options : TsRestExpressOptions)
    (contextFunction : option ContextFunction)
    (leaves : list (AppRoute * RouterObj)) (w : Host) : Host :=
  fold_left (fun w rl =>
               fst (initializeExpressRoute (snd rl) (fst rl) options contextFunction w))
            leaves w.

(** The [for (const key in router)] loop of the walker on its own, for
    reasoning about one iteration at a time. *)
Fixpoint each_key (schema : option AppRouter) (processRoute : ProcessRoute)
    (entries : list (string * RouterObj)) (w : Host) : Host * Outcome :=
  match entries with
  | [] => (w, Done)
  | (key, child) :: rest =>
      match isAppRoute schema with
      | None => (w, Threw TypeErrorSchemaUndefined)
      | Some true => (w, Threw ExpectedAppRouterButReceivedAppRoute)
      | Some false =>
          match recursivelyApplyExpressRouter (schema_get schema key)
                  child processRoute w with
          | (w', Done) => each_key schema processRoute rest w'
          | (w', Threw e) => (w', Threw e)
          end
      end
  end.

(** The [processRoute] callback [createExpressEndpoints] passes to the walker. *)
Definition processRoute_of (options : TsRestExpressOptions)
    (contextFunction : option ContextFunction) : ProcessRoute :=
  fun implementation innerSchema =>
    initializeExpressRoute implementation innerSchema options contextFunction.

(** The leaves met by one run of the loop over [entries] against the
    children [cs] of a schema Router. *)
Definition loop_leaves (cs : list (string * AppRouter))
    (entries : list (string * RouterObj)) : list (AppRoute * RouterObj) :=
  flat_map (fun kc =>
              match lookup (fst kc) cs with
              | Some s => leaves_in_order s (snd kc)
              | None => []
              end) entries.

(** What a run of the walker amounts to: it initializes an initial segment
    [pre] of the leaves, all of them when it completes, and throws one of
    its two errors when [clash] holds. *)
Definition walked (options : TsRestExpressOptions)
    (contextFunction : option ContextFunction)
    (leaves : list (AppRoute * RouterObj)) (clash : bool) (w : Host)
    (res : Host * Outcome) : Prop :=
  exists pre post,
    leaves = pre ++ post /\
    ((clash = false /\ post = [] /\
      res = (initialize_all options contextFunction pre w, Done)) \/
     (clash = true /\
      exists e, StructuralMismatch e /\
                res = (initialize_all options contextFunction pre w, Threw e))).

(** The handler chain the specification describes for a leaf. *)
Definition handler_chain (options : TsRestExpressOptions)
    (contextFunction : option ContextFunction) (route : AppRoute)
    (leaf : RouterObj) : list RequestHandler :=
  ContextMiddleware contextFunction route ::
  global_handlers options ++
  per_route_handlers leaf ++
  [MainReqHandler (route_handler leaf) route options].

(** The registration calls one leaf gives rise to: one under a supported
    method, none otherwise. *)
Definition registration_of (options : TsRestExpressOptions)
    (contextFunction : option ContextFunction) (rl : AppRoute * RouterObj)
  : list Registration :=
  match verb_of_method (method (fst rl)) with
  | Some v =>
      [{| reg_verb := v; reg_path := path (fst rl);
          reg_handlers := handler_chain options contextFunction (fst rl) (snd rl) |}]
  | None => []
  end.

(** The lines [logInitialization] writes for a sequence of leaves. *)
Definition log_lines (options : TsRestExpressOptions)
    (leaves : list (AppRoute * RouterObj)) : list string :=
  if logInitialization options then map (fun rl => log_line (fst rl)) leaves else [].

(** A callable or an options object. *)
Definition is_leaf (router : RouterObj) : bool :=
  match router with
  | ImplRouter _ => false
  | _ => true
  end.

Definition empty_host : Host := {| registered := []; console := [] |}.

(** The routes found by looking up each key of a schema Router once. *)
Definition routes_under (cs : list (string * AppRouter)) (k : string) : list AppRoute :=
  match lookup k cs with
  | Some s => routes_of s
  | None => []
  end.

(** ** The validation order the specification describes *)

Definition step_order : list Step := [Params; Headers; Query; Body].

(** What each step validates: the value, the shape and the mode. *)
Definition step_call (parseJsonQueryObject : value -> value) (schema : AppRoute)
    (options : TsRestExpressOptions) (req : Request) (st : Step)
  : value * option shape * bool :=
  match st with
  | Params => (req_params req, pathParams schema, true)
  | Headers => (req_headers req, headers schema, true)
  | Query => (query_input parseJsonQueryObject options req, query schema, false)
  | Body => (req_body req, body schema, false)
  end.

Definition step_event (parseJsonQueryObject : value -> value) (schema : AppRoute)
    (options : TsRestExpressOptions) (req : Request) (st : Step) : Event :=
  let '(data, sh, mode) := step_call parseJsonQueryObject schema options req st in
  Validated st data sh mode.

Definition step_outcome
    (checkZodSchema : value -> option shape -> bool -> ValidationOutcome)
    (parseJsonQueryObject : value -> value) (schema : AppRoute)
    (options : TsRestExpressOptions) (req : Request) (st : Step) : ValidationOutcome :=
  let '(data, sh, mode) := step_call parseJsonQueryObject schema options req st in
  checkZodSchema data sh mode.

(** The context a request gets when the context function, if any, resolves. *)
Definition resolves (contextFunction : option ContextFunction) (req : Request)
    (route : AppRoute) (context : value) : Prop :=
  match contextFunction with
  | None => context = VUndefined
  | Some f => f req route = ContextResolves context
  end.

Definition is_context_call (ev : Event) : bool :=
  match ev with
  | ContextCalled _ => true
  | _ => false
  end.

(** How often the context function was invoked in a trace. *)
Definition context_calls (trace : list Event) : nat :=
  List.length (filter is_context_call trace).

Definition is_context_middleware (h : RequestHandler) : bool :=
  match h with
  | ContextMiddleware _ _ => true
  | _ => false
  end.

(** A registration carrying the chain of [route] under its method and path. *)
Definition chain_of (options : TsRestExpressOptions)
    (contextFunction : option ContextFunction) (reg : Registration) : Prop :=
  exists route leaf,
    reg_handlers reg = handler_chain options contextFunction route leaf /\
    reg_path reg = path route /\
    verb_method (reg_verb reg) = method route.

(** ** The leaves ahead of the first clash *)

(** The implementation leaves that come, in key enumeration order, before
    the first node at which a leaf faces a sub-tree: under each key the
    leaves ahead of a clash below it, and the later keys only when there
    is no clash below it. *)
Fixpoint leaves_before_clash (schema : AppRouter) (router : RouterObj) {struct router}
  : list (AppRoute * RouterObj) :=
  match router with
  | ImplRouter children =>
      match schema with
      | Router cs =>
          (fix upto (entries : list (string * RouterObj)) : list (AppRoute * RouterObj) :=
             match entries with
             | [] => []
             | kc :: rest =>
                 match lookup (fst kc) cs with
                 | Some s =>
                     leaves_before_clash s (snd kc) ++
                     (if mismatch false s (snd kc) then [] else upto rest)
                 | None => []
                 end
             end) children
      | Route _ => []
      end
  | leaf =>
      match schema with
      | Route r => [(r, leaf)]
      | Router _ => []
      end
  end.

(** The same for the entries of one object against the children [cs] of a
    schema Router. *)
Fixpoint loop_before_clash (cs : list (string * AppRouter))
    (entries : list (string * RouterObj)) : list (AppRoute * RouterObj) :=
  match entries with
  | [] => []
  | kc :: rest =>
      match lookup (fst kc) cs with
      | Some s =>
          leaves_before_clash s (snd kc) ++
          (if mismatch false s (snd kc) then [] else loop_before_clash cs rest)
      | None => []
      end
  end.

(** A run that initialized exactly [leaves] and then completed, or threw
    one of the walker's two errors when [clash] holds. *)
Definition walked_to (options : TsRestExpressOptions)
    (contextFunction : option ContextFunction)
    (leaves : list (AppRoute * RouterObj)) (clash : bool) (w : Host)
    (res : Host * Outcome) : Prop :=
  (clash = false /\ res = (initialize_all options contextFunction leaves w, Done)) \/
  (clash = true /\
   exists e, StructuralMismatch e /\
             res = (initialize_all options contextFunction leaves w, Threw e)).

(** ** Sample routes and trees *)

Definition ok_handler : Handler :=
  fun _ => Returns {| status := VNum 200; result_body := VNull |}.

Definition sample_route (m p : string) : AppRoute :=
  {| method := m; path := p; pathParams := None; query := None;
     headers := None; body := None; responses := [] |}.

Definition create_user : AppRoute :=
  {| method := "POST"; path := "/users";
     pathParams := None; query := None; headers := None;
     body := Some (ShObject [("name", ShString)]);
     responses := [(201%Z, ShObject [("name", ShString)])] |}.

Definition get_user : AppRoute :=
  {| method := "GET"; path := "/users/:id";
     pathParams := Some (ShObject [("id", ShString)]);
     query := Some (ShObject [("active", ShBoolean)]);
     headers := None; body := None; responses := [] |}.

Definition empty_request : Request :=
  {| req_params := VObj []; req_headers := VObj []; req_query := VObj [];
     req_body := VObj []; req_files := VUndefined; req_file := VUndefined;
     tsRest := None |}.

(** [POST /users] with the body [{ name: "Ada" }]. *)
Definition named_request : Request :=
  {| req_params := VObj []; req_headers := VObj []; req_query := VObj [];
     req_body := VObj [("name", VStr "Ada")];
     req_files := VUndefined; req_file := VUndefined; tsRest := None |}.

(** [GET /users/7?active=true] with a stray path parameter. *)
Definition user_request : Request :=
  {| req_params := VObj [("id", VStr "7"); ("0", VStr "stray")];
     req_headers := VObj [("accept", VStr "*/*")];
     req_query := VObj [("active", VStr "true")];
     req_body := VUndefined;
     req_files := VUndefined; req_file := VUndefined; tsRest := None |}.

Definition checking_options : TsRestExpressOptions :=
  {| logInitialization := false; jsonQuery := true;
     responseValidation := true; globalMiddleware := None |}.

(** A handler answering 201 with a body that lacks [name]. *)
Definition malformed_handler : Handler :=
  fun _ => Returns {| status := VNum 201; result_body := VObj [("extra", VNum 1)] |}.

Definition failing_handler : Handler := fun _ => Throws (VStr "boom").

Definition failing_context : ContextFunction := fun _ _ => ContextRejects (VStr "boom").

(** [Number] on the values used in the samples. *)
Definition number_of (v : value) : jsnumber :=
  match v with
  | VNum n => Integer n
  | _ => NonInteger "NaN"
  end.

(** A host whose [json] always returns. *)
Definition json_sends : jsnumber -> value -> option value := fun _ _ => None.

(** A host whose [json] throws on a status outside 100..999. *)
Definition json_checks_status : jsnumber -> value -> option value :=
  fun statusCode _ =>
    match statusCode with
    | Integer n =>
        if (100 <=? n)%Z && (n <=? 999)%Z then None
        else Some (VStr "RangeError: Invalid status code")
    | NonInteger _ => Some (VStr "RangeError: Invalid status code")
    end.

(** [JSON.parse] on the literals used in the samples. *)
Definition literal_JSON (s : string) : option value :=
  if String.eqb s "true" then Some (VBool true)
  else if String.eqb s "false" then Some (VBool false)
  else if String.eqb s "null" then Some VNull
  else None.

(** What validating [named_request] against [create_user] yields. *)
Definition named_results : ValidationResults :=
  {| paramsResult := VObj []; headersResult := VObj [];
     queryResult := VObj []; bodyResult := VObj [("name", VStr "Ada")] |}.

Definition named_trace (options : TsRestExpressOptions) : list Event :=
  map (step_event (Core.parseJsonQueryObject literal_JSON) create_user options
         named_request) step_order.

(** [{ a: GET /a, b: { c: GET /b/c } }] *)
Definition nested_schema : AppRouter :=
  Router [("a", Route (sample_route "GET" "/a"));
          ("b", Router [("c", Route (sample_route "GET" "/b/c"))])].

(** [{ a: fn, b: fn }]: a callable where the schema has the Router [b]. *)
Definition late_mismatch : CompleteRouterObj :=
  initServer_router (ImplRouter [("a", ImplFn ok_handler); ("b", ImplFn ok_handler)]).

(** [{ a: {} }]: an object without keys where the schema has a Route. *)
Definition hollow_router : CompleteRouterObj :=
  initServer_router (ImplRouter [("a", ImplRouter [])]).

Definition sample_context : ContextFunction :=
  fun _ _ => ContextResolves (VStr "ctx").

(** [{ create: POST /users }] served with a context function. *)
Definition users_schema : AppRouter := Router [("create", Route create_user)].

Definition users_router : CompleteRouterObj :=
  initServer_context sample_context (ImplRouter [("create", ImplFn ok_handler)]).

Definition create_user_registration : Registration :=
  {| reg_verb := app_post; reg_path := "/users";
     reg_handlers :=
       handler_chain default_options (Some sample_context) create_user
         (ImplFn ok_handler) |}.

(** [{ handler: GET /h }] and [{ handler: fn }]: a route named [handler]. *)
Definition handler_schema : AppRouter :=
  Router [("handler", Route (sample_route "GET" "/h"))].

Definition handler_router : CompleteRouterObj :=
  initServer_router (ImplRouter [("handler", ImplFn ok_handler)]).

(** [{ a: fn, b: { c: { handler: fn, middleware: [] } } }] *)
Definition nested_router : CompleteRouterObj :=
  initServer_router
    (ImplRouter [("a", ImplFn ok_handler);
                 ("b", ImplRouter [("c", ImplOptions ok_handler (Some []))])]).

(** ** Classifying events *)

(** The events that end the engine's part in a request: a response call
    that returned or a hand-over to the host error pipeline. *)
Definition is_terminal (ev : Event) : bool :=
  match ev with
  | Sent _ _ | SentJson _ _ | NextError _ => true
  | _ => false
  end.

(** The calls made on the response object, whether they returned or threw. *)
Definition is_response_call (ev : Event) : bool :=
  match ev with
  | Sent _ _ | SentJson _ _ | JsonThrew _ _ _ => true
  | _ => false
  end.

Definition is_handler_call (ev : Event) : bool :=
  match ev with
  | HandlerInvoked _ => true
  | _ => false
  end.

(** [{ a: GET /a, b: { c: GET /b/c }, z: GET /z }]: [nested_schema] with a
    further route. *)
Definition wider_schema : AppRouter :=
  Router [("a", Route (sample_route "GET" "/a"));
          ("b", Router [("c", Route (sample_route "GET" "/b/c"))]);
          ("z", Route (sample_route "GET" "/z"))].

Definition quiet_options : TsRestExpressOptions :=
  {| logInitialization := false; jsonQuery := false;
     responseValidation := false; globalMiddleware := None |}.

(** ** Hosts extended by a batch of effects *)

(** The host [w] after further registrations and console lines. *)
Definition extend (regs : list Registration) (lines : list string) (w : Host) : Host :=
  {| registered := registered w ++ regs; console := console w ++ lines |}.

(** A host transformer that appends the same effects and ends the same way
    whatever host it starts from. *)
Definition uniform (f : Host -> Host * Outcome) : Prop :=
  exists regs lines out, forall w, f w = (extend regs lines w, out).

(** The Routes a possibly missing schema node holds. *)
Definition routes_within (schema : option AppRouter) : list AppRoute :=
  match schema with
  | Some s => routes_of s
  | None => []
  end.

(** * Properties *)

(** ** Induction over implementation trees *)

Lemma RouterObj_tree_ind (P : RouterObj -> Prop) :
  (forall h, P (ImplFn h)) ->
  (forall h mw, P (ImplOptions h mw)) ->
  (forall children, Forall (fun kc => P (snd kc)) children -> P (ImplRouter children)) ->
  forall router, P router.
Proof.
  intros Hfn Hopt Hrouter.
  fix IH 1.
  intros [h | h mw | children].
  - apply Hfn.
  - apply Hopt.
  - apply Hrouter.
    induction children as [| [k c] rest IHrest].
    + constructor.
    + constructor; [exact (IH c) | exact IHrest].
Qed.

(** ** The walker, one level at a time *)

Lemma walk_router schema children processRoute w :
  has_handler_fn (ImplRouter children) = false ->
  recursivelyApplyExpressRouter schema (ImplRouter children) processRoute w =
  each_key schema processRoute children w.
Proof.
  intros Hplain.
  cbn [recursivelyApplyExpressRouter is_object is_function negb andb].
  rewrite Hplain. cbn [negb]. clear Hplain.
  revert w. induction children as [| [k c] rest IH]; intros w.
  - reflexivity.
  - cbn [each_key]. destruct (isAppRoute schema) as [[|]|]; try reflexivity.
    destruct (recursivelyApplyExpressRouter (schema_get schema k) c processRoute w)
      as [w' [| e]]; [apply IH | reflexivity].
Qed.

Lemma walk_leaf schema router processRoute w :
  is_function router || has_handler_fn router = true ->
  recursivelyApplyExpressRouter schema router processRoute w =
  match isAppRoute schema with
  | None => (w, Threw TypeErrorSchemaUndefined)
  | Some false => (w, Threw ExpectedAppRouteButReceivedAppRouter)
  | Some true =>
      match schema with
      | Some (Route route) => processRoute router route w
      | _ => (w, Done)
      end
  end.
Proof.
  intros Hleaf.
  destruct router as [h | h mw | children]; try reflexivity.
  cbn [is_function orb] in Hleaf.
  cbn [recursivelyApplyExpressRouter is_object is_function negb andb orb].
  rewrite Hleaf. reflexivity.
Qed.

(** ** The walker initializes the leaves in order, up to the first clash *)

Lemma pair_done (res : Host * Outcome) :
  snd res = Done -> res = (fst res, Done).
Proof. destruct res as [w out]. cbn. intros ->. reflexivity. Qed.

Section Walk.

Variable options : TsRestExpressOptions.
Variable contextFunction : option ContextFunction.

Lemma initialize_all_app pre post w :
  initialize_all options contextFunction (pre ++ post) w =
  initialize_all options contextFunction post
    (initialize_all options contextFunction pre w).
Proof. unfold initialize_all. apply fold_left_app. Qed.

Lemma initialize_leaf_done leaf route w :
  is_function leaf || has_handler_fn leaf = true ->
  plain_keys leaf = true ->
  snd (initializeExpressRoute leaf route options contextFunction w) = Done.
Proof.
  intros Hleaf Hplain.
  destruct leaf as [h | h [ms |] | children]; unfold initializeExpressRoute; cbn.
  - destruct (verb_of_method (method route)); reflexivity.
  - destruct (verb_of_method (method route)); reflexivity.
  - destruct (verb_of_method (method route)); reflexivity.
  - cbn in Hleaf, Hplain. rewrite Hleaf in Hplain. discriminate.
Qed.

Lemma walked_loop cs entries :
  Forall (fun kc =>
            forall schema w,
              plain_keys (snd kc) = true ->
              covered schema (snd kc) = true ->
              walked options contextFunction
                (leaves_in_order schema (snd kc))
                (mismatch false schema (snd kc)) w
                (recursivelyApplyExpressRouter (Some schema) (snd kc)
                   (processRoute_of options contextFunction) w)) entries ->
  forall w,
    forallb (fun kc => plain_keys (snd kc)) entries = true ->
    covered (Router cs) (ImplRouter entries) = true ->
    walked options contextFunction
      (loop_leaves cs entries)
      (mismatch false (Router cs) (ImplRouter entries)) w
      (each_key (Some (Router cs)) (processRoute_of options contextFunction) entries w).
Proof.
  induction 1 as [| [k c] rest Hc _ IH]; intros w Hplain Hcov.
  - exists [], []. split; [reflexivity |]. left. repeat split.
  - cbn [forallb snd] in Hplain. apply andb_prop in Hplain as [Hpc Hprest].
    cbn [covered forallb fst snd] in Hcov. apply andb_prop in Hcov as [Hcc Hcrest].
    cbn [each_key isAppRoute schema_get].
    cbn [loop_leaves flat_map mismatch existsb fst snd].
    destruct (lookup k cs) as [s |] eqn:Hs; [| discriminate].
    destruct (Hc s w Hpc Hcc)
      as (pre & post & Hleaves & [(Hm & Hpost & Hres) | (Hm & e & He & Hres)]);
      cbn [snd] in Hres, Hm, Hleaves.
    + rewrite Hres, Hm. cbn [orb]. subst post.
      rewrite app_nil_r in Hleaves.
      destruct (IH (initialize_all options contextFunction pre w) Hprest Hcrest)
        as (pre' & post' & Hleaves' & Hcases).
      exists (pre ++ pre'), post'. split.
      * rewrite Hleaves. unfold loop_leaves in Hleaves'.
        rewrite Hleaves'. apply app_assoc.
      * rewrite initialize_all_app. exact Hcases.
    + rewrite Hres, Hm. cbn [orb].
      exists pre, (post ++ loop_leaves cs rest). split.
      * rewrite Hleaves. symmetry. apply app_assoc.
      * right. split; [reflexivity |]. exists e. split; [exact He | reflexivity].
Qed.

Lemma walked_tree router :
  forall schema w,
    plain_keys router = true ->
    covered schema router = true ->
    walked options contextFunction
      (leaves_in_order schema router) (mismatch false schema router) w
      (recursivelyApplyExpressRouter (Some schema) router
         (processRoute_of options contextFunction) w).
Proof.
  induction router as [h | h mw | children IH] using RouterObj_tree_ind;
    intros schema w Hplain Hcov.
  - rewrite walk_leaf by reflexivity.
    destruct schema as [r | cs]; cbn [isAppRoute leaves_in_order mismatch].
    + exists [(r, ImplFn h)], []. split; [reflexivity |]. left. repeat split.
      unfold processRoute_of, initialize_all. cbn [fold_left fst snd].
      apply pair_done. apply initialize_leaf_done; reflexivity.
    + exists [], []. split; [reflexivity |]. right. split; [reflexivity |].
      exists ExpectedAppRouteButReceivedAppRouter. split; [right; reflexivity | reflexivity].
  - rewrite walk_leaf by reflexivity.
    destruct schema as [r | cs]; cbn [isAppRoute leaves_in_order mismatch].
    + exists [(r, ImplOptions h mw)], []. split; [reflexivity |]. left. repeat split.
      unfold processRoute_of, initialize_all. cbn [fold_left fst snd].
      apply pair_done. apply initialize_leaf_done; reflexivity.
    + exists [], []. split; [reflexivity |]. right. split; [reflexivity |].
      exists ExpectedAppRouteButReceivedAppRouter. split; [right; reflexivity | reflexivity].
  - cbn [plain_keys] in Hplain. apply andb_prop in Hplain as [Hh Hrest].
    apply negb_true_iff in Hh.
    rewrite walk_router by exact Hh.
    destruct schema as [r | cs].
    + cbn [leaves_in_order mismatch orb].
      destruct children as [| [k c] rest]; cbn [each_key isAppRoute is_nil negb].
      * exists [], []. split; [reflexivity |]. left. repeat split.
      * exists [], []. split; [reflexivity |]. right. split; [reflexivity |].
        exists ExpectedAppRouterButReceivedAppRoute.
        split; [left; reflexivity | reflexivity].
    + apply (walked_loop cs children IH w Hrest Hcov).
Qed.

End Walk.

(** ** Effects of initializing leaves *)

Lemma mentions_In k ks : Core.mentions k ks = true <-> In k ks.
Proof.
  unfold Core.mentions. rewrite existsb_exists. split.
  - intros (x & Hin & Heq). apply String.eqb_eq in Heq. subst x. exact Hin.
  - intros Hin. exists k. split; [exact Hin | apply String.eqb_refl].
Qed.

Lemma verb_of_method_sound m v :
  verb_of_method m = Some v -> verb_method v = m.
Proof.
  unfold verb_of_method.
  repeat match goal with
         | |- context [String.eqb m ?s] =>
             let E := fresh "E" in
             destruct (String.eqb m s) eqn:E;
             [ apply String.eqb_eq in E; intros [= <-]; symmetry; exact E | ]
         end.
  discriminate.
Qed.

Lemma verb_of_method_none m :
  verb_of_method m = None <-> ~ In m supported_methods.
Proof.
  unfold verb_of_method, supported_methods. split.
  - intros H Hin.
    repeat match type of H with
           | context [String.eqb m ?s] =>
               let E := fresh "E" in
               destruct (String.eqb m s) eqn:E;
               [ discriminate | apply String.eqb_neq in E ]
           end.
    cbn in Hin. intuition congruence.
  - intros Hno.
    repeat match goal with
           | |- context [String.eqb m ?s] =>
               let E := fresh "E" in
               destruct (String.eqb m s) eqn:E;
               [ apply String.eqb_eq in E; exfalso; apply Hno; subst m; cbn; tauto | ]
           end.
    reflexivity.
Qed.

Lemma verb_of_supported m :
  Core.mentions m supported_methods = true -> exists v, verb_of_method m = Some v.
Proof.
  intros H. apply mentions_In in H.
  destruct (verb_of_method m) as [v |] eqn:E; [exists v; reflexivity |].
  apply verb_of_method_none in E. contradiction.
Qed.

Section Effects.

Variable options : TsRestExpressOptions.
Variable contextFunction : option ContextFunction.

Lemma initialize_leaf leaf route w :
  is_leaf leaf = true ->
  initializeExpressRoute leaf route options contextFunction w =
  ({| registered := registered w ++
                    registration_of options contextFunction (route, leaf);
      console := console w ++ log_lines options [(route, leaf)] |}, Done).
Proof.
  intros Hleaf. unfold initializeExpressRoute, registration_of, log_lines, handler_chain.
  destruct w as [regs lines].
  destruct leaf as [h | h [ms |] | children]; [| | | discriminate];
    cbn [isAppRouteImplementation is_function middleware_prop route_handler
         handler_fn per_route_handlers fst snd map];
    destruct (logInitialization options);
    destruct (verb_of_method (method route));
    cbn [register console_log registered console app];
    rewrite ?app_nil_r, <- ?app_assoc; reflexivity.
Qed.

Lemma initialize_all_effects leaves w :
  Forall (fun rl => is_leaf (snd rl) = true) leaves ->
  initialize_all options contextFunction leaves w =
  {| registered := registered w ++
                   flat_map (registration_of options contextFunction) leaves;
     console := console w ++ log_lines options leaves |}.
Proof.
  intros Hleaves. revert w.
  induction Hleaves as [| [r l] rest Hl _ IH]; intros w.
  - destruct w as [regs lines]. unfold initialize_all, log_lines. cbn.
    destruct (logInitialization options); rewrite !app_nil_r; reflexivity.
  - unfold initialize_all in *. cbn [fold_left fst snd] in *.
    rewrite (initialize_leaf l r w Hl). cbn [fst].
    rewrite IH. cbn [registered console flat_map].
    unfold log_lines. destruct (logInitialization options);
      cbn [map app]; rewrite <- ?app_assoc, ?app_nil_r; reflexivity.
Qed.

End Effects.

Lemma leaves_are_leaves router :
  forall schema,
    Forall (fun rl => is_leaf (snd rl) = true) (leaves_in_order schema router).
Proof.
  induction router as [h | h mw | children IH] using RouterObj_tree_ind;
    intros [r | cs]; cbn [leaves_in_order]; repeat constructor.
  induction IH as [| [k c] rest Hc _ IHrest]; cbn [flat_map fst snd].
  - constructor.
  - apply Forall_app. split; [| exact IHrest].
    destruct (lookup k cs); [apply Hc | constructor].
Qed.

(** ** Structural mismatch *)

Lemma create_walked schema router options app :
  plain_keys (tree router) = true ->
  covered schema (tree router) = true ->
  walked options (routerOptions router)
    (leaves_in_order schema (tree router)) (mismatch false schema (tree router)) app
    (createExpressEndpoints schema router options app).
Proof.
  intros Hplain Hcov.
  exact (walked_tree options (routerOptions router) (tree router) schema app Hplain Hcov).
Qed.

Lemma before_clash_router cs children :
  leaves_before_clash (Router cs) (ImplRouter children) = loop_before_clash cs children.
Proof.
  cbn [leaves_before_clash].
  induction children as [| kc rest IH]; [reflexivity |].
  cbn [loop_before_clash]. destruct (lookup (fst kc) cs) as [s |]; [| reflexivity].
  destruct (mismatch false s (snd kc)); [reflexivity | rewrite IH; reflexivity].
Qed.

Lemma mismatch_cons cs k c rest :
  mismatch false (Router cs) (ImplRouter ((k, c) :: rest)) =
  match lookup k cs with
  | Some s => mismatch false s c
  | None => false
  end || mismatch false (Router cs) (ImplRouter rest).
Proof. reflexivity. Qed.

Lemma walked_to_loop options contextFunction cs entries :
  Forall (fun kc =>
            forall schema w,
              plain_keys (snd kc) = true ->
              covered schema (snd kc) = true ->
              walked_to options contextFunction
                (leaves_before_clash schema (snd kc))
                (mismatch false schema (snd kc)) w
                (recursivelyApplyExpressRouter (Some schema) (snd kc)
                   (processRoute_of options contextFunction) w)) entries ->
  forall w,
    forallb (fun kc => plain_keys (snd kc)) entries = true ->
    covered (Router cs) (ImplRouter entries) = true ->
    walked_to options contextFunction
      (loop_before_clash cs entries)
      (mismatch false (Router cs) (ImplRouter entries)) w
      (each_key (Some (Router cs)) (processRoute_of options contextFunction) entries w).
Proof.
  induction 1 as [| [k c] rest Hc _ IH]; intros w Hplain Hcov.
  - left. split; reflexivity.
  - cbn [forallb snd] in Hplain. apply andb_prop in Hplain as [Hpc Hprest].
    cbn [covered forallb fst snd] in Hcov. apply andb_prop in Hcov as [Hcc Hcrest].
    rewrite mismatch_cons.
    cbn [each_key isAppRoute schema_get loop_before_clash fst snd].
    destruct (lookup k cs) as [s |] eqn:Hs; [| discriminate].
    destruct (Hc s w Hpc Hcc) as [(Hm & Hres) | (Hm & e & He & Hres)];
      cbn [snd] in Hres, Hm; rewrite Hres, Hm; cbn [orb].
    + destruct (IH (initialize_all options contextFunction
                      (leaves_before_clash s c) w) Hprest Hcrest)
        as [(Hm' & Hres') | (Hm' & e & He & Hres')];
        rewrite Hm', Hres'.
      * left. split; [reflexivity |]. rewrite initialize_all_app. reflexivity.
      * right. split; [reflexivity |]. exists e. split; [exact He |].
        rewrite initialize_all_app. reflexivity.
    + rewrite app_nil_r. right. split; [reflexivity |].
      exists e. split; [exact He | reflexivity].
Qed.

Lemma walked_to_tree options contextFunction router :
  forall schema w,
    plain_keys router = true ->
    covered schema router = true ->
    walked_to options contextFunction
      (leaves_before_clash schema router) (mismatch false schema router) w
      (recursivelyApplyExpressRouter (Some schema) router
         (processRoute_of options contextFunction) w).
Proof.
  induction router as [h | h mw | children IH] using RouterObj_tree_ind;
    intros schema w Hplain Hcov.
  - rewrite walk_leaf by reflexivity.
    destruct schema as [r | cs]; cbn [isAppRoute leaves_before_clash mismatch].
    + left. split; [reflexivity |].
      unfold processRoute_of, initialize_all. cbn [fold_left fst snd].
      apply pair_done. apply initialize_leaf_done; reflexivity.
    + right. split; [reflexivity |].
      exists ExpectedAppRouteButReceivedAppRouter. split; [right; reflexivity | reflexivity].
  - rewrite walk_leaf by reflexivity.
    destruct schema as [r | cs]; cbn [isAppRoute leaves_before_clash mismatch].
    + left. split; [reflexivity |].
      unfold processRoute_of, initialize_all. cbn [fold_left fst snd].
      apply pair_done. apply initialize_leaf_done; reflexivity.
    + right. split; [reflexivity |].
      exists ExpectedAppRouteButReceivedAppRouter. split; [right; reflexivity | reflexivity].
  - cbn [plain_keys] in Hplain. apply andb_prop in Hplain as [Hh Hrest].
    apply negb_true_iff in Hh.
    rewrite walk_router by exact Hh.
    destruct schema as [r | cs].
    + cbn [leaves_before_clash mismatch orb].
      destruct children as [| [k c] rest]; cbn [each_key isAppRoute is_nil negb].
      * left. split; reflexivity.
      * right. split; [reflexivity |].
        exists ExpectedAppRouterButReceivedAppRoute.
        split; [left; reflexivity | reflexivity].
    + rewrite before_clash_router.
      apply (walked_to_loop options contextFunction cs children IH w Hrest Hcov).
Qed.

Lemma before_clash_is_initial router :
  forall schema,
    covered schema router = true ->
    exists post,
      leaves_in_order schema router = leaves_before_clash schema router ++ post /\
      (mismatch false schema router = false -> post = []).
Proof.
  induction router as [h | h mw | children IH] using RouterObj_tree_ind;
    intros [r | cs] Hcov;
    try (exists []; split; [reflexivity | reflexivity]).
  rewrite before_clash_router. cbn [leaves_in_order mismatch].
  cbn [covered] in Hcov.
  induction IH as [| [k c] rest Hc _ IHrest].
  - exists []. split; reflexivity.
  - cbn [forallb fst snd] in Hcov. apply andb_prop in Hcov as [Hk Hrest].
    cbn [flat_map loop_before_clash existsb fst snd].
    destruct (lookup k cs) as [s |]; [| discriminate].
    destruct (Hc s Hk) as (post & Hleaves & Hpost). cbn [snd] in Hleaves, Hpost.
    destruct (IHrest Hrest) as (post' & Hleaves' & Hpost').
    destruct (mismatch false s c) eqn:Hm; cbn [orb].
    + exists (post ++ flat_map
                  (fun kc =>
                     match lookup (fst kc) cs with
                     | Some s0 => leaves_in_order s0 (snd kc)
                     | None => []
                     end) rest).
      rewrite Hleaves, app_nil_r, app_assoc. split; [reflexivity | discriminate].
    + rewrite (Hpost eq_refl), app_nil_r in Hleaves.
      exists post'. rewrite Hleaves, Hleaves', app_assoc.
      split; [reflexivity | exact Hpost'].
Qed.

(** C1, as amended: when every implementation key is a schema key, no
    sub-router has a callable under the key [handler], and some key path
    holds a leaf in one tree and a sub-tree in the other (an implementation
    sub-tree with at least one key), registration throws one of the two
    structural-mismatch errors.  By then the walk has registered, after
    the routes the host already had, the chains of exactly the leaves that
    come before the first such node in key enumeration order, an initial
    segment of all the leaves; they stay registered, and no later leaf is
    registered. *)
Theorem mismatch_aborts_registration schema router options app :
  plain_keys (tree router) = true ->
  covered schema (tree router) = true ->
  mismatch false schema (tree router) = true ->
  exists e app',
    createExpressEndpoints schema router options app = (app', Threw e) /\
    StructuralMismatch e /\
    registered app' =
    registered app ++
    flat_map (registration_of options (routerOptions router))
      (leaves_before_clash schema (tree router)) /\
    console app' =
    console app ++ log_lines options (leaves_before_clash schema (tree router)) /\
    exists post,
      leaves_in_order schema (tree router) =
      leaves_before_clash schema (tree router) ++ post.
Proof.
  intros Hplain Hcov Hmis.
  destruct (before_clash_is_initial (tree router) schema Hcov) as (post & Hleaves & _).
  destruct (walked_to_tree options (routerOptions router) (tree router) schema app
              Hplain Hcov) as [(Hno & _) | (_ & e & He & Hres)].
  - rewrite Hmis in Hno. discriminate.
  - exists e, (initialize_all options (routerOptions router)
                 (leaves_before_clash schema (tree router)) app).
    split; [exact Hres |]. split; [exact He |].
    assert (Hall : Forall (fun rl => is_leaf (snd rl) = true)
                     (leaves_before_clash schema (tree router))).
    { pose proof (leaves_are_leaves (tree router) schema) as Hall.
      rewrite Hleaves in Hall. apply Forall_app in Hall. apply Hall. }
    rewrite (initialize_all_effects options (routerOptions router) _ app Hall).
    cbn [registered console]. repeat split. exists post. exact Hleaves.
Qed.

Lemma mismatch_aborts_registration_witness :
  exists e app',
    createExpressEndpoints nested_schema late_mismatch default_options empty_host
    = (app', Threw e) /\
    StructuralMismatch e /\
    registered app' =
    registered empty_host ++
    flat_map (registration_of default_options (routerOptions late_mismatch))
      [(sample_route "GET" "/a", ImplFn ok_handler)].
Proof.
  destruct (mismatch_aborts_registration nested_schema late_mismatch default_options
              empty_host eq_refl eq_refl eq_refl)
    as (e & app' & Hrun & He & Hreg & _).
  exists e, app'. split; [exact Hrun |]. split; [exact He | exact Hreg].
Defined.

(** C1 as stated fails: with [{ a: fn, b: fn }] against
    [{ a: GET /a, b: { c: .. } }] the walker registers the chain of [a]
    before it throws at [b]; and with [{ a: {} }] against the same schema
    the loop over the keys of [{}] has no iteration, so nothing is thrown. *)
Lemma mismatch_after_registration :
  mismatch true nested_schema (tree hollow_router) = true /\
  createExpressEndpoints nested_schema hollow_router default_options empty_host =
  (empty_host, Done) /\
  mismatch true nested_schema (tree late_mismatch) = true /\
  createExpressEndpoints nested_schema late_mismatch default_options empty_host =
  ({| registered :=
        registration_of default_options None
          (sample_route "GET" "/a", ImplFn ok_handler);
      console := ["[ts-rest] Initialized GET /a"] |},
   Threw ExpectedAppRouteButReceivedAppRouter) /\
  ~ (exists e app',
       createExpressEndpoints nested_schema late_mismatch default_options empty_host
       = (app', Threw e) /\
       StructuralMismatch e /\
       registered app' = registered empty_host).
Proof.
  do 4 (split; [reflexivity |]).
  intros (e & app' & Hrun & _ & Hsame).
  cbv in Hrun. injection Hrun as <- _. discriminate Hsame.
Qed.

(** ** Unsupported methods *)

(** C6, as amended: a leaf route whose declared method is none of the five
    verbs raises no error at registration; the switch has no default case,
    so no chain is registered for it, and only the initialization line is
    logged when logging is on. *)
Theorem unsupported_method_is_skipped leaf route options contextFunction w :
  ~ In (method route) supported_methods ->
  is_leaf leaf = true ->
  initializeExpressRoute leaf route options contextFunction w =
  ({| registered := registered w;
      console := console w ++ log_lines options [(route, leaf)] |}, Done).
Proof.
  intros Hno Hleaf. rewrite (initialize_leaf options contextFunction leaf route w Hleaf).
  unfold registration_of. cbn [fst].
  apply verb_of_method_none in Hno. rewrite Hno, app_nil_r. reflexivity.
Qed.

Lemma unsupported_method_is_skipped_witness :
  initializeExpressRoute (ImplFn ok_handler) (sample_route "HEAD" "/x")
    default_options None empty_host =
  ({| registered := registered empty_host;
      console := console empty_host ++
                 log_lines default_options
                   [(sample_route "HEAD" "/x", ImplFn ok_handler)] |}, Done).
Proof.
  apply (unsupported_method_is_skipped (ImplFn ok_handler) (sample_route "HEAD" "/x")
           default_options None empty_host).
  - cbn. intros H. repeat (destruct H as [H | H]; [discriminate H |]). exact H.
  - reflexivity.
Defined.

(** C6 as stated fails: registering a HEAD route completes without an
    error and without a registration. *)
Lemma head_route_raises_nothing :
  ~ In "HEAD" supported_methods /\
  createExpressEndpoints (Route (sample_route "HEAD" "/x"))
    (initServer_router (ImplFn ok_handler)) default_options empty_host =
  ({| registered := []; console := ["[ts-rest] Initialized HEAD /x"] |}, Done) /\
  ~ (exists e,
       snd (createExpressEndpoints (Route (sample_route "HEAD" "/x"))
              (initServer_router (ImplFn ok_handler)) default_options empty_host)
       = Threw e).
Proof.
  split; [| split].
  - cbn. intros H. repeat (destruct H as [H | H]; [discriminate H |]). exact H.
  - reflexivity.
  - intros (e & He). discriminate He.
Qed.

(** ** Trees of identical shape *)

Lemma lookup_In {A : Type} k (props : list (string * A)) v :
  lookup k props = Some v -> In (k, v) props.
Proof.
  induction props as [| [k' v'] rest IH]; cbn; [discriminate |].
  destruct (String.eqb k k') eqn:E.
  - apply String.eqb_eq in E. intros [= ->]. subst. left. reflexivity.
  - intros H. right. apply IH, H.
Qed.

Lemma same_shape_covered router :
  forall schema, same_shape schema router = true -> covered schema router = true.
Proof.
  induction router as [h | h mw | children IH] using RouterObj_tree_ind;
    intros [r | cs]; cbn [same_shape covered]; try reflexivity; try discriminate.
  intros H. apply andb_prop in H as [_ H].
  induction IH as [| [k c] rest Hc _ IHrest]; [reflexivity |].
  cbn [forallb fst snd] in *. apply andb_prop in H as [Hk Hrest].
  destruct (lookup k cs) as [s |]; [| discriminate].
  rewrite (Hc s Hk). apply IHrest, Hrest.
Qed.

Lemma same_shape_no_mismatch router :
  forall schema, same_shape schema router = true -> mismatch false schema router = false.
Proof.
  induction router as [h | h mw | children IH] using RouterObj_tree_ind;
    intros [r | cs]; cbn [same_shape mismatch]; try reflexivity; try discriminate.
  intros H. apply andb_prop in H as [_ H].
  induction IH as [| [k c] rest Hc _ IHrest]; [reflexivity |].
  cbn [forallb existsb fst snd] in *. apply andb_prop in H as [Hk Hrest].
  destruct (lookup k cs) as [s |]; [| discriminate].
  rewrite (Hc s Hk). apply IHrest, Hrest.
Qed.

Lemma supported_leaves router :
  forall schema,
    supported schema = true ->
    Forall (fun rl => Core.mentions (method (fst rl)) supported_methods = true)
           (leaves_in_order schema router).
Proof.
  induction router as [h | h mw | children IH] using RouterObj_tree_ind;
    intros [r | cs] Hsup; cbn [leaves_in_order]; repeat constructor;
    try exact Hsup.
  cbn [supported] in Hsup. rewrite forallb_forall in Hsup.
  induction IH as [| [k c] rest Hc _ IHrest]; cbn [flat_map fst snd].
  - constructor.
  - apply Forall_app. split; [| exact IHrest].
    destruct (lookup k cs) as [s |] eqn:Hs; [| constructor].
    apply Hc. apply (Hsup (k, s)). apply lookup_In, Hs.
Qed.

Lemma distinct_NoDup ks : distinct ks = true -> NoDup ks.
Proof.
  induction ks as [| k rest IH]; cbn [distinct]; intros H.
  - constructor.
  - apply andb_prop in H as [Hk Hrest]. constructor.
    + intros Hin. apply mentions_In in Hin. rewrite Hin in Hk. discriminate.
    + apply IH, Hrest.
Qed.

Lemma same_keys_Permutation ks ks' :
  distinct ks = true -> distinct ks' = true -> same_keys ks ks' = true ->
  Permutation ks' ks.
Proof.
  intros Hd Hd' Hsame. unfold same_keys in Hsame.
  apply andb_prop in Hsame as [H1 H2]. rewrite forallb_forall in H1, H2.
  apply NoDup_Permutation; [apply distinct_NoDup, Hd' | apply distinct_NoDup, Hd |].
  intros k. split; intros Hin.
  - apply mentions_In, H2, Hin.
  - apply mentions_In, H1, Hin.
Qed.

Lemma routes_by_key cs :
  NoDup (keys cs) ->
  flat_map (routes_under cs) (keys cs) = flat_map (fun kc => routes_of (snd kc)) cs.
Proof.
  induction cs as [| [k s] rest IH]; intros Hnd; [reflexivity |].
  cbn [keys map fst] in Hnd. inversion Hnd as [| ? ? Hk Hrest]; subst.
  cbn [keys map flat_map fst snd]. f_equal.
  - unfold routes_under. cbn [lookup]. rewrite String.eqb_refl. reflexivity.
  - rewrite <- (IH Hrest). rewrite !flat_map_concat_map. f_equal.
    apply map_ext_in. intros k' Hin.
    unfold routes_under. cbn [lookup].
    destruct (String.eqb k' k) eqn:E; [| reflexivity].
    apply String.eqb_eq in E. subst k'. contradiction.
Qed.

Lemma leaves_cover_routes router :
  forall schema,
    same_shape schema router = true ->
    Permutation (map fst (leaves_in_order schema router)) (routes_of schema).
Proof.
  induction router as [h | h mw | children IH] using RouterObj_tree_ind;
    intros [r | cs]; cbn [same_shape leaves_in_order routes_of map fst];
    try discriminate; try (intros _; apply Permutation_refl).
  intros H.
  apply andb_prop in H as [H Hall]. apply andb_prop in H as [H Hsame].
  apply andb_prop in H as [Hdc Hdch].
  rewrite <- (routes_by_key cs (distinct_NoDup (keys cs) Hdc)).
  apply Permutation_trans with (flat_map (routes_under cs) (keys children)).
  - clear Hsame Hdch Hdc.
    induction IH as [| [k c] rest Hc _ IHrest]; [apply Permutation_refl |].
    cbn [forallb fst snd] in Hall. apply andb_prop in Hall as [Hk Hrest].
    cbn [flat_map keys map fst snd]. rewrite map_app.
    apply Permutation_app; [| apply IHrest, Hrest].
    unfold routes_under. destruct (lookup k cs) as [s |]; [| discriminate].
    apply Hc, Hk.
  - apply Permutation_flat_map. apply same_keys_Permutation; assumption.
Qed.

Lemma registrations_of_supported options contextFunction leaves :
  Forall (fun rl => Core.mentions (method (fst rl)) supported_methods = true) leaves ->
  Forall2 (fun rl reg =>
             verb_method (reg_verb reg) = method (fst rl) /\
             reg_path reg = path (fst rl) /\
             reg_handlers reg =
             [ContextMiddleware contextFunction (fst rl)] ++
             global_handlers options ++
             per_route_handlers (snd rl) ++
             [MainReqHandler (route_handler (snd rl)) (fst rl) options])
          leaves (flat_map (registration_of options contextFunction) leaves).
Proof.
  induction 1 as [| rl rest Hrl _ IH]; cbn [flat_map]; [constructor |].
  destruct (verb_of_supported (method (fst rl)) Hrl) as [v Hv].
  unfold registration_of at 1. rewrite Hv. cbn [app].
  constructor; [| exact IH].
  cbn [reg_verb reg_path reg_handlers]. repeat split.
  apply verb_of_method_sound, Hv.
Qed.

(** C5, as amended: for every pair of identical shape in which no
    implementation sub-router has a callable under the key [handler] and
    every Route declares one of the five verbs, registration completes and
    appends one registration per implementation leaf, in the implementation
    tree's key enumeration order; each is made under the route's declared
    method and path and carries exactly the chain context middleware,
    global middleware, per-route middleware, main handler; and the routes
    so registered are the leaf Routes of the schema, each once. *)
Theorem identical_shapes_register_every_leaf schema router options app :
  same_shape schema (tree router) = true ->
  plain_keys (tree router) = true ->
  supported schema = true ->
  exists regs,
    createExpressEndpoints schema router options app =
    ({| registered := registered app ++ regs;
        console := console app ++
                   log_lines options (leaves_in_order schema (tree router)) |},
     Done) /\
    Forall2 (fun rl reg =>
               verb_method (reg_verb reg) = method (fst rl) /\
               reg_path reg = path (fst rl) /\
               reg_handlers reg =
               [ContextMiddleware (routerOptions router) (fst rl)] ++
               global_handlers options ++
               per_route_handlers (snd rl) ++
               [MainReqHandler (route_handler (snd rl)) (fst rl) options])
            (leaves_in_order schema (tree router)) regs /\
    Permutation (map fst (leaves_in_order schema (tree router))) (routes_of schema).
Proof.
  intros Hshape Hplain Hsup.
  pose proof (same_shape_covered (tree router) schema Hshape) as Hcov.
  pose proof (same_shape_no_mismatch (tree router) schema Hshape) as Hno.
  destruct (create_walked schema router options app Hplain Hcov)
    as (pre & post & Hleaves & [(_ & Hpost & Hres) | (Hmis & _)]).
  - subst post. rewrite app_nil_r in Hleaves. subst pre.
    exists (flat_map (registration_of options (routerOptions router))
              (leaves_in_order schema (tree router))).
    split; [| split].
    + rewrite Hres. f_equal.
      apply initialize_all_effects, leaves_are_leaves.
    + apply registrations_of_supported, supported_leaves, Hsup.
    + apply leaves_cover_routes, Hshape.
  - rewrite Hno in Hmis. discriminate.
Qed.

Lemma identical_shapes_register_every_leaf_witness :
  exists regs,
    createExpressEndpoints nested_schema nested_router default_options empty_host =
    ({| registered := registered empty_host ++ regs;
        console := console empty_host ++
                   log_lines default_options
                     (leaves_in_order nested_schema (tree nested_router)) |},
     Done) /\
    Forall2 (fun rl reg =>
               verb_method (reg_verb reg) = method (fst rl) /\
               reg_path reg = path (fst rl) /\
               reg_handlers reg =
               [ContextMiddleware (routerOptions nested_router) (fst rl)] ++
               global_handlers default_options ++
               per_route_handlers (snd rl) ++
               [MainReqHandler (route_handler (snd rl)) (fst rl) default_options])
            (leaves_in_order nested_schema (tree nested_router)) regs /\
    Permutation (map fst (leaves_in_order nested_schema (tree nested_router)))
                (routes_of nested_schema).
Proof.
  apply (identical_shapes_register_every_leaf nested_schema nested_router
           default_options empty_host); reflexivity.
Defined.

(** C5 as stated fails: [{ handler: fn }] mirrors the schema
    [{ handler: GET /h }] key for key, yet the walker takes the object for
    an options object, throws, and registers nothing.  A Route declaring
    HEAD, faced by a callable, is walked without an error and without a
    registration either. *)
Lemma identical_shapes_left_unregistered :
  same_shape handler_schema (tree handler_router) = true /\
  supported handler_schema = true /\
  routes_of handler_schema = [sample_route "GET" "/h"] /\
  createExpressEndpoints handler_schema handler_router default_options empty_host =
  (empty_host, Threw ExpectedAppRouteButReceivedAppRouter) /\
  same_shape (Route (sample_route "HEAD" "/x")) (ImplFn ok_handler) = true /\
  registered
    (fst (createExpressEndpoints (Route (sample_route "HEAD" "/x"))
            (initServer_router (ImplFn ok_handler)) default_options empty_host)) = [].
Proof. repeat split. Qed.

(** ** The request pipeline *)

Section Requests.

Variable checkZodSchema : value -> option shape -> bool -> ValidationOutcome.
Variable parseJsonQueryObject : value -> value.
Variable validateResponse : option shape -> jsnumber -> value -> ResponseCheck.
Variable Number : value -> jsnumber.
Variable json : jsnumber -> value -> option value.

Local Abbreviation validate := (validateRequest checkZodSchema parseJsonQueryObject).
Local Abbreviation main := (mainReqHandler checkZodSchema parseJsonQueryObject
                    validateResponse Number json).
Local Abbreviation outcome_of := (step_outcome checkZodSchema parseJsonQueryObject).
Local Abbreviation event_of := (step_event parseJsonQueryObject).

Lemma validate_failure req schema options pre st post error :
  step_order = pre ++ st :: post ->
  (forall s, In s pre -> exists data, outcome_of schema options req s = Success data) ->
  outcome_of schema options req st = Failure error ->
  validate req schema options =
  (map (event_of schema options req) (pre ++ [st]) ++ [Sent 400 error], None).
Proof.
  intros Horder Hpre Hfail.
  assert (Hok : forall s, In s pre ->
                  exists data, outcome_of schema options req s = Success data)
    by exact Hpre.
  unfold step_order in Horder.
  destruct pre as [| s1 [| s2 [| s3 [| s4 pre]]]]; cbn [app] in Horder;
    injection Horder as; subst;
    try (destruct pre; discriminate).
  - cbn in Hfail. unfold validateRequest. rewrite Hfail. reflexivity.
  - destruct (Hok Params) as [d1 H1]; [cbn; tauto |].
    cbn in Hfail, H1. unfold validateRequest. rewrite H1, Hfail. reflexivity.
  - destruct (Hok Params) as [d1 H1]; [cbn; tauto |].
    destruct (Hok Headers) as [d2 H2]; [cbn; tauto |].
    cbn in Hfail, H1, H2. unfold validateRequest. rewrite H1, H2, Hfail. reflexivity.
  - destruct (Hok Params) as [d1 H1]; [cbn; tauto |].
    destruct (Hok Headers) as [d2 H2]; [cbn; tauto |].
    destruct (Hok Query) as [d3 H3]; [cbn; tauto |].
    cbn in Hfail, H1, H2, H3. unfold validateRequest.
    rewrite H1, H2, H3, Hfail. reflexivity.
Qed.

Lemma event_of_step schema options req st :
  exists data sh mode, event_of schema options req st = Validated st data sh mode.
Proof. destruct st; cbn; eauto. Qed.

Lemma validate_success req schema options trace results :
  validate req schema options = (trace, Some results) ->
  trace = map (event_of schema options req) step_order /\
  outcome_of schema options req Params = Success (paramsResult results) /\
  outcome_of schema options req Headers = Success (headersResult results) /\
  outcome_of schema options req Query = Success (queryResult results) /\
  outcome_of schema options req Body = Success (bodyResult results).
Proof.
  unfold validateRequest, step_outcome, step_event, step_order. cbn [step_call map].
  destruct (checkZodSchema (req_params req) (pathParams schema) true); [| discriminate].
  destruct (checkZodSchema (req_headers req) (headers schema) true); [| discriminate].
  destruct (checkZodSchema (query_input parseJsonQueryObject options req) (query schema)
              false); [| discriminate].
  destruct (checkZodSchema (req_body req) (body schema) false); [| discriminate].
  intros [= <- <-]. cbn. repeat split.
Qed.

(** C2: validation runs in the order path parameters, headers, query,
    body; when the steps before [st] succeed and [st] fails with [error],
    the trace is the validation calls up to [st] followed by a 400
    response carrying [error]: no later step is evaluated and the handler
    is not invoked. *)
Theorem validation_short_circuits handler req schema options pre st post error :
  step_order = pre ++ st :: post ->
  (forall s, In s pre -> exists data, outcome_of schema options req s = Success data) ->
  outcome_of schema options req st = Failure error ->
  main handler schema options req =
  map (event_of schema options req) (pre ++ [st]) ++ [Sent 400 error] /\
  (forall args, ~ In (HandlerInvoked args) (main handler schema options req)) /\
  (forall s data sh mode,
     In s post -> ~ In (Validated s data sh mode) (main handler schema options req)).
Proof.
  intros Horder Hpre Hfail.
  pose proof (validate_failure req schema options pre st post error Horder Hpre Hfail)
    as Hval.
  assert (Hmain : main handler schema options req =
                  map (event_of schema options req) (pre ++ [st]) ++ [Sent 400 error]).
  { unfold mainReqHandler. rewrite Hval. reflexivity. }
  rewrite Hmain. split; [reflexivity |]. split.
  - intros args Hin. apply in_app_or in Hin as [Hin | [Hin | []]]; [| discriminate].
    apply in_map_iff in Hin as (s & Hs & _).
    destruct (event_of_step schema options req s) as (d & sh & m & Hev).
    rewrite Hev in Hs. discriminate.
  - intros s data sh mode Hpost Hin.
    apply in_app_or in Hin as [Hin | [Hin | []]]; [| discriminate].
    apply in_map_iff in Hin as (s' & Hs' & Hin').
    destruct (event_of_step schema options req s') as (d' & sh' & m' & Hev).
    rewrite Hev in Hs'. injection Hs' as -> _ _ _.
    assert (Hnd : NoDup step_order) by (repeat constructor; cbn; intuition discriminate).
    rewrite Horder in Hnd.
    replace (pre ++ st :: post) with ((pre ++ [st]) ++ post) in Hnd
      by (rewrite <- app_assoc; reflexivity).
    clear - Hnd Hpost Hin'.
    induction (pre ++ [st]) as [| x l IH]; [contradiction |].
    cbn [app] in Hnd. inversion Hnd as [| ? ? Hx Hl]; subst.
    destruct Hin' as [-> | Hin'].
    + apply Hx. apply in_or_app. right. exact Hpost.
    + apply IH; assumption.
Qed.

(** C9: once validation has succeeded, an error thrown by the route
    implementation, or the rejection of the promise it returns, is
    passed unchanged to [next]; the engine sends no response of its own. *)
Theorem handler_failure_is_forwarded handler req schema options trace results e :
  validate req schema options = (trace, Some results) ->
  handler (handler_args results req) = Throws e \/
  handler (handler_args results req) = Rejects e ->
  main (Some handler) schema options req =
  trace ++ [HandlerInvoked (handler_args results req); NextError e] /\
  (forall code b, ~ In (Sent code b) (main (Some handler) schema options req)) /\
  (forall code b, ~ In (SentJson code b) (main (Some handler) schema options req)).
Proof.
  intros Hval Hfail.
  assert (Hmain : main (Some handler) schema options req =
                  trace ++ [HandlerInvoked (handler_args results req); NextError e]).
  { unfold mainReqHandler. rewrite Hval. destruct Hfail as [-> | ->]; reflexivity. }
  rewrite Hmain. split; [reflexivity |].
  destruct (validate_success req schema options trace results Hval) as [-> _].
  split; intros code b Hin;
    (apply in_app_or in Hin as [Hin | [Hin | [Hin | []]]]; [| discriminate ..]);
    apply in_map_iff in Hin as (s & Hs & _);
    destruct (event_of_step schema options req s) as (d & sh & m & Hev);
    rewrite Hev in Hs; discriminate.
Qed.

Lemma declared_under_exact code rs :
  match declared_under code rs with
  | Some sh => In (code, sh) rs
  | None => forall sh, ~ In (code, sh) rs
  end.
Proof.
  induction rs as [| [c sh] rest IH]; cbn [declared_under].
  - intros sh [].
  - destruct (Z.eqb code c) eqn:E.
    + apply Z.eqb_eq in E. subst c. left. reflexivity.
    + apply Z.eqb_neq in E. destruct (declared_under code rest) as [sh' |].
      * right. exact IH.
      * intros sh' [[= -> _] | Hin]; [congruence | exact (IH sh' Hin)].
Qed.

(** C4: when the route implementation returns normally the engine answers
    with [res.status(c).json(..)], [c] being [Number] of the result's
    status field.  With response validation off the body is the handler's,
    as it is.  With response validation on, the body is first checked
    against the shape declared under exactly that status code; the checked
    body is what is sent when the check passes and, when the check throws,
    no response call is made and the error goes to [next].  Should the
    response call itself throw, that error goes to [next] as well. *)
Theorem response_follows_handler_result handler req schema options trace results result :
  validate req schema options = (trace, Some results) ->
  handler (handler_args results req) = Returns result ->
  let statusCode := Number (status result) in
  let responseType := response_type statusCode (responses schema) in
  let sofar := trace ++ [HandlerInvoked (handler_args results req)] in
  let answer body :=
    match json statusCode body with
    | None => [SentJson statusCode body]
    | Some e => [JsonThrew statusCode body e; NextError e]
    end in
  (responseValidation options = false ->
   main (Some handler) schema options req = sofar ++ answer (result_body result)) /\
  (responseValidation options = true ->
   (forall sh,
      responseType = Some sh ->
      exists code, statusCode = Integer code /\ In (code, sh) (responses schema)) /\
   (forall code,
      statusCode = Integer code -> responseType = None ->
      forall sh, ~ In (code, sh) (responses schema)) /\
   (forall checked,
      validateResponse responseType statusCode (result_body result) = ResponseOk checked ->
      main (Some handler) schema options req =
      sofar ++ ResponseValidated responseType statusCode (result_body result) ::
               answer checked) /\
   (forall e,
      validateResponse responseType statusCode (result_body result) = ResponseThrows e ->
      main (Some handler) schema options req =
      sofar ++ [ResponseValidated responseType statusCode (result_body result);
                NextError e])).
Proof.
  intros Hval Hret statusCode responseType sofar answer. subst sofar.
  assert (Hmain : main (Some handler) schema options req =
                  trace ++ HandlerInvoked (handler_args results req) ::
                  respond validateResponse Number json schema options result).
  { unfold mainReqHandler. rewrite Hval, Hret. reflexivity. }
  rewrite Hmain. unfold respond, send_json.
  fold statusCode. fold responseType.
  split; [intros ->; rewrite <- app_assoc; reflexivity |].
  intros ->. split; [| split; [| split]].
  - intros sh Hsh. subst responseType. unfold response_type in Hsh.
    destruct statusCode as [code | text]; [| discriminate].
    exists code. split; [reflexivity |].
    pose proof (declared_under_exact code (responses schema)) as Hexact.
    rewrite Hsh in Hexact. exact Hexact.
  - intros code Hcode Hnone. subst responseType. rewrite Hcode in Hnone.
    cbn [response_type] in Hnone.
    pose proof (declared_under_exact code (responses schema)) as Hexact.
    rewrite Hnone in Hexact. exact Hexact.
  - intros checked ->. rewrite <- app_assoc. reflexivity.
  - intros e ->. rewrite <- app_assoc. reflexivity.
Qed.

(** C10: when the declared context function throws, or the promise it
    returns rejects, the context middleware neither calls [next] nor
    forwards the error: whatever follows it in the chain, the only events
    are the call and an unhandled rejection, and the request is left as it
    was. *)
Theorem context_failure_stalls_request f route rest req e :
  f req route = ContextThrows e \/ f req route = ContextRejects e ->
  dispatch checkZodSchema parseJsonQueryObject validateResponse Number json
    (ContextMiddleware (Some f) route :: rest) req =
  ([ContextCalled route; UnhandledRejection e], req).
Proof.
  intros Hfail. cbn [dispatch run_handler contextMiddleware].
  destruct Hfail as [-> | ->]; reflexivity.
Qed.

End Requests.

(** ** What any walk registers *)

Lemma each_key_invariant (I : Host -> Prop) schema processRoute entries :
  Forall (fun kc =>
            forall schema w,
              I w ->
              I (fst (recursivelyApplyExpressRouter schema (snd kc) processRoute w)))
         entries ->
  forall w, I w -> I (fst (each_key schema processRoute entries w)).
Proof.
  induction 1 as [| [k c] rest Hc _ IH]; intros w Hw; [exact Hw |].
  cbn [each_key]. destruct (isAppRoute schema) as [[|] |]; try exact Hw.
  specialize (Hc (schema_get schema k) w Hw). cbn [snd] in Hc.
  destruct (recursivelyApplyExpressRouter (schema_get schema k) c processRoute w)
    as [w' [| e]]; cbn [fst] in Hc.
  - apply IH, Hc.
  - exact Hc.
Qed.

Lemma walk_invariant (I : Host -> Prop) (processRoute : ProcessRoute) :
  (forall implementation route w, I w -> I (fst (processRoute implementation route w))) ->
  forall router schema w,
    I w -> I (fst (recursivelyApplyExpressRouter schema router processRoute w)).
Proof.
  intros Hstep.
  assert (Hleaf : forall router schema w,
             is_function router || has_handler_fn router = true ->
             I w -> I (fst (recursivelyApplyExpressRouter schema router processRoute w))).
  { intros router schema w Hl Hw. rewrite (walk_leaf schema router processRoute w Hl).
    destruct schema as [[r | cs] |]; cbn [isAppRoute fst]; try exact Hw.
    apply Hstep, Hw. }
  induction router as [h | h mw | children IH] using RouterObj_tree_ind;
    intros schema w Hw; try (apply Hleaf; [reflexivity | exact Hw]).
  destruct (has_handler_fn (ImplRouter children)) eqn:Hh.
  - apply Hleaf; [exact Hh | exact Hw].
  - rewrite (walk_router schema children processRoute w Hh).
    apply each_key_invariant; assumption.
Qed.

Lemma initialize_registers_chain options contextFunction implementation route w :
  exists regs,
    registered (fst (initializeExpressRoute implementation route options
                       contextFunction w)) = registered w ++ regs /\
    Forall (chain_of options contextFunction) regs.
Proof.
  unfold initializeExpressRoute.
  assert (Hnone : forall w', registered w' = registered w ->
            exists regs, registered w' = registered w ++ regs /\
                         Forall (chain_of options contextFunction) regs).
  { intros w' Hw'. exists []. rewrite app_nil_r. split; [exact Hw' | constructor]. }
  assert (Hlog : registered (if logInitialization options
                             then console_log (log_line route) w else w) = registered w)
    by (destruct (logInitialization options); reflexivity).
  set (w1 := if logInitialization options then console_log (log_line route) w else w) in *.
  assert (Hsome : forall mws,
            per_route_handlers implementation = mws ->
            exists regs,
              registered
                (fst match verb_of_method (method route) with
                     | Some v =>
                         (register
                            {| reg_verb := v; reg_path := path route;
                               reg_handlers :=
                                 (([ContextMiddleware contextFunction route] ++
                                   global_handlers options) ++ mws) ++
                                 [MainReqHandler (route_handler implementation) route
                                    options] |} w1, Done)
                     | None => (w1, Done)
                     end) = registered w ++ regs /\
              Forall (chain_of options contextFunction) regs).
  { intros mws Hmws. destruct (verb_of_method (method route)) as [v |] eqn:Hv.
    - eexists [_]. cbn [fst register registered]. rewrite Hlog. split; [reflexivity |].
      constructor; [| constructor]. exists route, implementation.
      cbn [reg_handlers reg_path reg_verb]. unfold handler_chain. rewrite Hmws.
      repeat split.
      + cbn [app]. rewrite <- app_assoc. reflexivity.
      + apply verb_of_method_sound, Hv.
    - apply Hnone. exact Hlog. }
  destruct implementation as [h | h [ms |] | children];
    cbn [isAppRouteImplementation is_function middleware_prop].
  - rewrite <- (app_nil_r ([ContextMiddleware contextFunction route] ++ _)).
    apply Hsome. reflexivity.
  - apply Hsome. reflexivity.
  - rewrite <- (app_nil_r ([ContextMiddleware contextFunction route] ++ _)).
    apply Hsome. reflexivity.
  - destruct (lookup "middleware" children).
    + apply Hnone. exact Hlog.
    + rewrite <- (app_nil_r ([ContextMiddleware contextFunction route] ++ _)).
      apply Hsome. reflexivity.
Qed.

Lemma new_registrations schema router options app :
  exists regs,
    registered (fst (createExpressEndpoints schema router options app)) =
    registered app ++ regs /\
    Forall (chain_of options (routerOptions router)) regs.
Proof.
  unfold createExpressEndpoints.
  apply (walk_invariant
           (fun w => exists regs,
                registered w = registered app ++ regs /\
                Forall (chain_of options (routerOptions router)) regs)).
  - intros implementation route w (regs & Hw & Hall).
    destruct (initialize_registers_chain options (routerOptions router)
                implementation route w) as (regs' & Hw' & Hall').
    exists (regs ++ regs'). rewrite Hw', Hw, app_assoc. split; [reflexivity |].
    apply Forall_app. split; assumption.
  - exists []. rewrite app_nil_r. split; [reflexivity | constructor].
Qed.

(** ** The context middleware *)

Section Context.

Variable checkZodSchema : value -> option shape -> bool -> ValidationOutcome.
Variable parseJsonQueryObject : value -> value.
Variable validateResponse : option shape -> jsnumber -> value -> ResponseCheck.
Variable Number : value -> jsnumber.
Variable json : jsnumber -> value -> option value.

Local Abbreviation main := (mainReqHandler checkZodSchema parseJsonQueryObject
                              validateResponse Number json).
Local Abbreviation run := (dispatch checkZodSchema parseJsonQueryObject
                             validateResponse Number json).

Lemma validate_no_context_calls req schema options :
  context_calls (fst (validateRequest checkZodSchema parseJsonQueryObject req schema
                        options)) = 0.
Proof.
  unfold validateRequest.
  repeat match goal with
         | |- context [match checkZodSchema ?a ?b ?c with _ => _ end] =>
             destruct (checkZodSchema a b c)
         end; reflexivity.
Qed.

Lemma context_calls_app t1 t2 :
  context_calls (t1 ++ t2) = context_calls t1 + context_calls t2.
Proof. unfold context_calls. rewrite filter_app, length_app. reflexivity. Qed.

Lemma main_no_context_calls handler schema options req :
  context_calls (main handler schema options req) = 0.
Proof.
  unfold mainReqHandler.
  pose proof (validate_no_context_calls req schema options) as Hval.
  destruct (validateRequest checkZodSchema parseJsonQueryObject req schema options)
    as [trace [results |]]; cbn [fst] in Hval; [| exact Hval].
  rewrite context_calls_app, Hval. cbn [Nat.add].
  destruct handler as [h |]; [| reflexivity].
  destruct (h (handler_args results req)) as [result | e | e]; try reflexivity.
  unfold respond, send_json. destruct (responseValidation options);
    [destruct (validateResponse _ _ _) |];
    try destruct (json _ _); reflexivity.
Qed.

Lemma dispatch_no_context_calls handlers :
  forallb (fun h => negb (is_context_middleware h)) handlers = true ->
  forall req, context_calls (fst (run handlers req)) = 0.
Proof.
  induction handlers as [| h rest IH]; intros Hall req; [reflexivity |].
  cbn [forallb] in Hall. apply andb_prop in Hall as [Hh Hrest].
  cbn [dispatch]. destruct h as [cf r | m | handler schema options]; [discriminate | |].
  - cbn [run_handler]. destruct (m req) as [req' | e |]; [| reflexivity ..].
    specialize (IH Hrest req'). destruct (run rest req') as [trace' final].
    cbn [fst] in *. rewrite context_calls_app, IH. reflexivity.
  - cbn [run_handler fst]. apply main_no_context_calls.
Qed.

Lemma rest_has_no_context_middleware options leaf handler route :
  forallb (fun h => negb (is_context_middleware h))
          (global_handlers options ++ per_route_handlers leaf ++
           [MainReqHandler handler route options]) = true.
Proof.
  assert (Huser : forall ms,
             forallb (fun h => negb (is_context_middleware h)) (map UserMiddleware ms)
             = true).
  { induction ms as [| m ms IHms]; [reflexivity | exact IHms]. }
  rewrite !forallb_app. apply andb_true_intro. split; [| apply andb_true_intro; split].
  - unfold global_handlers. destruct (globalMiddleware options) as [ms |];
      [apply Huser | reflexivity].
  - unfold per_route_handlers. destruct leaf as [h | h [ms |] | cs]; try reflexivity.
    apply Huser.
  - reflexivity.
Qed.

(** C3: every chain [createExpressEndpoints] registers starts with the
    context middleware of its route, ahead of the global and per-route
    middleware and of the main handler that validates.  On a request it
    invokes the declared context function once (not at all when none is
    declared); when that resolves to [context] ([undefined] when none is
    declared) it sets [req.tsRest] to the route and [context] and only then
    calls [next], so the rest of the chain runs on the request with the
    field attached, whatever validation later decides. *)
Theorem context_is_attached_first schema router options app reg req :
  In reg (registered (fst (createExpressEndpoints schema router options app))) ->
  ~ In reg (registered app) ->
  exists route leaf,
    let rest := global_handlers options ++ per_route_handlers leaf ++
                [MainReqHandler (route_handler leaf) route options] in
    let called := match routerOptions router with
                  | Some _ => [ContextCalled route]
                  | None => []
                  end in
    reg_handlers reg = ContextMiddleware (routerOptions router) route :: rest /\
    forall context,
      resolves (routerOptions router) req route context ->
      let req' := set_tsRest req route context in
      run (reg_handlers reg) req =
      (called ++ [Attached route context; NextCalled] ++ fst (run rest req'),
       snd (run rest req')) /\
      context_calls (fst (run (reg_handlers reg) req)) = List.length called /\
      tsRest req' = Some (route, context) /\
      (global_handlers options ++ per_route_handlers leaf = [] ->
       tsRest (snd (run (reg_handlers reg) req)) = Some (route, context) /\
       forall args,
         In (HandlerInvoked args) (fst (run (reg_handlers reg) req)) ->
         tsRest (arg_req args) = Some (route, context)).
Proof.
  intros Hin Hnew.
  destruct (new_registrations schema router options app) as (regs & Hregs & Hall).
  rewrite Hregs in Hin. apply in_app_or in Hin as [Hold | Hin]; [contradiction |].
  rewrite Forall_forall in Hall. destruct (Hall reg Hin) as (route & leaf & Hchain & _).
  exists route, leaf. cbn zeta. split; [exact Hchain |].
  intros context Hres. rewrite Hchain. unfold handler_chain.
  set (rest := global_handlers options ++ per_route_handlers leaf ++
               [MainReqHandler (route_handler leaf) route options]).
  assert (Hrun : run (ContextMiddleware (routerOptions router) route :: rest) req =
                 (match routerOptions router with
                  | Some _ => [ContextCalled route]
                  | None => []
                  end ++ [Attached route context; NextCalled] ++
                  fst (run rest (set_tsRest req route context)),
                  snd (run rest (set_tsRest req route context)))).
  { unfold resolves in Hres.
    destruct (routerOptions router) as [f |];
      cbn [dispatch run_handler contextMiddleware].
    - rewrite Hres. destruct (run rest (set_tsRest req route context)). reflexivity.
    - subst context. destruct (run rest (set_tsRest req route VUndefined)). reflexivity. }
  rewrite Hrun. split; [reflexivity |]. cbn [fst snd]. split; [| split; [reflexivity |]].
  - rewrite !context_calls_app.
    rewrite (dispatch_no_context_calls rest
               (rest_has_no_context_middleware options leaf (route_handler leaf) route)).
    destruct (routerOptions router); reflexivity.
  - intros Hbare. subst rest. rewrite app_assoc, Hbare. cbn [List.app dispatch run_handler snd fst].
    split; [reflexivity |].
    intros args Hargs.
    apply in_app_or in Hargs as [Hargs | Hargs];
      [destruct (routerOptions router); [destruct Hargs as [? | []]; discriminate
                                        | contradiction] |].
    destruct Hargs as [? | [? | Hargs]]; [discriminate | discriminate |].
    unfold mainReqHandler in Hargs.
    destruct (validateRequest checkZodSchema parseJsonQueryObject
                (set_tsRest req route context) route options) as [trace [results |]] eqn:Hval.
    + destruct (validate_success checkZodSchema parseJsonQueryObject _ _ _ _ _ Hval)
        as [-> _].
      apply in_app_or in Hargs as [Hargs | Hargs].
      * apply in_map_iff in Hargs as (s & Hs & _).
        destruct (event_of_step parseJsonQueryObject route options
                    (set_tsRest req route context) s) as (d & sh & m & Hev).
        rewrite Hev in Hs. discriminate.
      * destruct (route_handler leaf) as [h |];
          [| destruct Hargs as [? | []]; discriminate].
        destruct Hargs as [[= <-] | Hargs]; [reflexivity |].
        exfalso. unfold respond, send_json in Hargs.
        repeat match type of Hargs with
               | context [match ?x with _ => _ end] => destruct x
               | context [if ?x then _ else _] => destruct x
               end; cbn in Hargs; intuition discriminate.
    + exfalso. unfold validateRequest in Hval.
      repeat match type of Hval with
             | context [match ?x with _ => _ end] => destruct x
             end; injection Hval as <-; cbn in Hargs; intuition discriminate.
Qed.

End Context.

(** ** Tolerant and strict validation, JSON query values *)

Lemma tolerant_single_field k sh props v d :
  lookup k props = Some v ->
  Core.check true sh v = Success d ->
  exists data,
    Core.check true (ShObject [(k, sh)]) (VObj props) = Success (VObj data) /\
    lookup k data = Some d.
Proof.
  intros Hk Hv. cbn [Core.check]. rewrite Hk, Hv.
  destruct (filter _ props) as [| x extras]; eexists; (split; [reflexivity |]);
    cbn [lookup app]; rewrite String.eqb_refl; reflexivity.
Qed.

Lemma validate_all_pass checkZodSchema parseJsonQueryObject req schema options pd hd qd bd :
  checkZodSchema (req_params req) (pathParams schema) true = Success pd ->
  checkZodSchema (req_headers req) (headers schema) true = Success hd ->
  checkZodSchema (query_input parseJsonQueryObject options req) (query schema) false
  = Success qd ->
  checkZodSchema (req_body req) (body schema) false = Success bd ->
  validateRequest checkZodSchema parseJsonQueryObject req schema options =
  (map (step_event parseJsonQueryObject schema options req) step_order,
   Some {| paramsResult := pd; headersResult := hd;
           queryResult := qd; bodyResult := bd |}).
Proof.
  intros Hp Hh Hq Hb. unfold validateRequest. rewrite Hp, Hh, Hq, Hb. reflexivity.
Qed.

Lemma main_after_validation checkZodSchema parseJsonQueryObject validateResponse Number
      json h req schema options trace results :
  validateRequest checkZodSchema parseJsonQueryObject req schema options
  = (trace, Some results) ->
  exists rest,
    mainReqHandler checkZodSchema parseJsonQueryObject validateResponse Number json
      (Some h) schema options req =
    trace ++ HandlerInvoked (handler_args results req) :: rest.
Proof.
  intros Hval. unfold mainReqHandler. rewrite Hval. eexists. reflexivity.
Qed.

(** C7: [validateRequest] runs the checks of the path parameters and of
    the headers with [passThroughExtraKeys] on: whatever the validator, a
    failure of either tolerant check is what is answered with 400.  With
    the validator of the specification, a request whose path parameters
    carry [id] next to undeclared keys is not refused for its parameters
    against the shape [{ id: string }]; when the headers, query and body
    pass as well, validation succeeds, the parsed parameters hold that
    [id], and they are what the route implementation is called with. *)
Theorem extra_path_params_are_tolerated checkZodSchema parseJsonQueryObject
        validateResponse Number json req schema options props id :
  pathParams schema = Some (ShObject [("id", ShString)]) ->
  req_params req = VObj props ->
  lookup "id" props = Some (VStr id) ->
  let ev_params := Validated Params (req_params req) (pathParams schema) true in
  let ev_headers := Validated Headers (req_headers req) (headers schema) true in
  (forall e,
     checkZodSchema (req_params req) (pathParams schema) true = Failure e ->
     validateRequest checkZodSchema parseJsonQueryObject req schema options =
     ([ev_params; Sent 400 e], None)) /\
  (forall d e,
     checkZodSchema (req_params req) (pathParams schema) true = Success d ->
     checkZodSchema (req_headers req) (headers schema) true = Failure e ->
     validateRequest checkZodSchema parseJsonQueryObject req schema options =
     ([ev_params; ev_headers; Sent 400 e], None)) /\
  exists data,
    Core.checkZodSchema (req_params req) (pathParams schema) true = Success (VObj data) /\
    lookup "id" data = Some (VStr id) /\
    (forall e,
       validateRequest Core.checkZodSchema parseJsonQueryObject req schema options <>
       ([ev_params; Sent 400 e], None)) /\
    (forall hd qd bd,
       Core.checkZodSchema (req_headers req) (headers schema) true = Success hd ->
       Core.checkZodSchema (query_input parseJsonQueryObject options req) (query schema)
         false = Success qd ->
       Core.checkZodSchema (req_body req) (body schema) false = Success bd ->
       validateRequest Core.checkZodSchema parseJsonQueryObject req schema options =
       (map (step_event parseJsonQueryObject schema options req) step_order,
        Some {| paramsResult := VObj data; headersResult := hd;
                queryResult := qd; bodyResult := bd |}) /\
       forall h,
       exists rest,
         mainReqHandler Core.checkZodSchema parseJsonQueryObject validateResponse Number
           json (Some h) schema options req =
         map (step_event parseJsonQueryObject schema options req) step_order ++
         HandlerInvoked {| arg_params := VObj data; arg_body := bd; arg_query := qd;
                           arg_headers := hd; arg_files := req_files req;
                           arg_file := req_file req; arg_req := req |} :: rest).
Proof.
  intros Hshape Hparams Hid ev_params ev_headers.
  split; [| split].
  - intros e He. unfold validateRequest. rewrite He. reflexivity.
  - intros d e Hd He. unfold validateRequest. rewrite Hd, He. reflexivity.
  - destruct (tolerant_single_field "id" ShString props (VStr id) (VStr id) Hid eq_refl)
      as (data & Hcheck & Hdata).
    assert (Hcall : Core.checkZodSchema (req_params req) (pathParams schema) true
                    = Success (VObj data)).
    { rewrite Hshape, Hparams. exact Hcheck. }
    exists data. split; [exact Hcall |]. split; [exact Hdata |]. split.
    + intros e. unfold validateRequest. rewrite Hcall.
      repeat match goal with
             | |- context [match Core.checkZodSchema ?a ?b ?c with _ => _ end] =>
                 destruct (Core.checkZodSchema a b c)
             end; discriminate.
    + intros hd qd bd Hh Hq Hb.
      pose proof (validate_all_pass Core.checkZodSchema parseJsonQueryObject req schema
                    options (VObj data) hd qd bd Hcall Hh Hq Hb) as Hval.
      split; [exact Hval |]. intros h.
      exact (main_after_validation Core.checkZodSchema parseJsonQueryObject
               validateResponse Number json h req schema options _ _ Hval).
Qed.

Lemma extra_path_params_are_tolerated_witness :
  exists data,
    validateRequest Core.checkZodSchema (Core.parseJsonQueryObject literal_JSON)
      user_request get_user checking_options =
    (map (step_event (Core.parseJsonQueryObject literal_JSON) get_user checking_options
            user_request) step_order,
     Some {| paramsResult := VObj data;
             headersResult := VObj [("accept", VStr "*/*")];
             queryResult := VObj [("active", VBool true)];
             bodyResult := VUndefined |}) /\
    lookup "id" data = Some (VStr "7").
Proof.
  destruct (extra_path_params_are_tolerated Core.checkZodSchema
              (Core.parseJsonQueryObject literal_JSON) Core.validateResponse number_of
              json_sends user_request get_user checking_options
              [("id", VStr "7"); ("0", VStr "stray")] "7" eq_refl eq_refl eq_refl)
    as (_ & _ & data & _ & Hid & _ & Hrun).
  destruct (Hrun (VObj [("accept", VStr "*/*")]) (VObj [("active", VBool true)])
              VUndefined eq_refl eq_refl eq_refl) as [Hval _].
  exists data. split; [exact Hval | exact Hid].
Defined.

Lemma lookup_map {A B : Type} (f : A -> B) k (props : list (string * A)) :
  lookup k (map (fun kv => (fst kv, f (snd kv))) props) = option_map f (lookup k props).
Proof.
  induction props as [| [k' v] rest IH]; [reflexivity |].
  cbn [map lookup fst snd]. destruct (String.eqb k k'); [reflexivity | exact IH].
Qed.

(** C8: with [jsonQuery] on, the query validation is run on the query
    object as [parseJsonQueryObject] returns it and before the body is
    looked at: whatever the validator, its failure on the parsed query is
    answered with 400, and its data for the parsed query is the query the
    request is handled with.  The parser of the specification replaces
    every string value by what it parses to as JSON and leaves it as the
    raw string when that fails.  So for [?active=true], on a route whose
    query shape is [{ active: boolean }], the value validated, and
    delivered to the route implementation, under [active] is the boolean
    [true]. *)
Theorem json_query_values_are_parsed checkZodSchema parseJsonQueryObject
        validateResponse Number json JSON_parse req schema options :
  jsonQuery options = true ->
  let ev_params := Validated Params (req_params req) (pathParams schema) true in
  let ev_headers := Validated Headers (req_headers req) (headers schema) true in
  let ev_body := Validated Body (req_body req) (body schema) false in
  let parse := Core.parseJsonQueryObject JSON_parse in
  (forall pd hd,
     checkZodSchema (req_params req) (pathParams schema) true = Success pd ->
     checkZodSchema (req_headers req) (headers schema) true = Success hd ->
     let parsed := parseJsonQueryObject (req_query req) in
     let ev_query := Validated Query parsed (query schema) false in
     (forall e,
        checkZodSchema parsed (query schema) false = Failure e ->
        validateRequest checkZodSchema parseJsonQueryObject req schema options =
        ([ev_params; ev_headers; ev_query; Sent 400 e], None)) /\
     (forall qd bd,
        checkZodSchema parsed (query schema) false = Success qd ->
        checkZodSchema (req_body req) (body schema) false = Success bd ->
        validateRequest checkZodSchema parseJsonQueryObject req schema options =
        ([ev_params; ev_headers; ev_query; ev_body],
         Some {| paramsResult := pd; headersResult := hd;
                 queryResult := qd; bodyResult := bd |}))) /\
  (forall props k raw,
     req_query req = VObj props ->
     lookup k props = Some (VStr raw) ->
     exists entries,
       parse (req_query req) = VObj entries /\
       lookup k entries = Some match JSON_parse raw with
                               | Some parsed => parsed
                               | None => VStr raw
                               end) /\
  (JSON_parse "true" = Some (VBool true) ->
   req_query req = VObj [("active", VStr "true")] ->
   query schema = Some (ShObject [("active", ShBoolean)]) ->
   forall pd hd bd,
     Core.checkZodSchema (req_params req) (pathParams schema) true = Success pd ->
     Core.checkZodSchema (req_headers req) (headers schema) true = Success hd ->
     Core.checkZodSchema (req_body req) (body schema) false = Success bd ->
     validateRequest Core.checkZodSchema parse req schema options =
     ([ev_params; ev_headers;
       Validated Query (VObj [("active", VBool true)]) (query schema) false; ev_body],
      Some {| paramsResult := pd; headersResult := hd;
              queryResult := VObj [("active", VBool true)]; bodyResult := bd |}) /\
     forall h,
     exists rest,
       mainReqHandler Core.checkZodSchema parse validateResponse Number json (Some h)
         schema options req =
       [ev_params; ev_headers;
        Validated Query (VObj [("active", VBool true)]) (query schema) false; ev_body] ++
       HandlerInvoked {| arg_params := pd; arg_body := bd;
                         arg_query := VObj [("active", VBool true)];
                         arg_headers := hd; arg_files := req_files req;
                         arg_file := req_file req; arg_req := req |} :: rest).
Proof.
  intros Hjson ev_params ev_headers ev_body parse.
  split; [| split].
  - intros pd hd Hp Hh parsed ev_query. split.
    + intros e He. unfold validateRequest, query_input. rewrite Hp, Hh, Hjson.
      fold parsed. rewrite He. reflexivity.
    + intros qd bd Hq Hb. unfold validateRequest, query_input. rewrite Hp, Hh, Hjson.
      fold parsed. rewrite Hq, Hb. reflexivity.
  - intros props k raw Hquery Hk. subst parse. rewrite Hquery.
    cbn [Core.parseJsonQueryObject]. eexists. split; [reflexivity |].
    rewrite lookup_map, Hk. reflexivity.
  - intros Htrue Hquery Hshape pd hd bd Hp Hh Hb.
    assert (Hparsed : query_input parse options req = VObj [("active", VBool true)]).
    { unfold query_input. rewrite Hjson, Hquery. subst parse.
      cbn [Core.parseJsonQueryObject map fst snd Core.json_or_raw]. rewrite Htrue.
      reflexivity. }
    assert (Hq : Core.checkZodSchema (query_input parse options req) (query schema) false
                 = Success (VObj [("active", VBool true)])).
    { rewrite Hparsed, Hshape. reflexivity. }
    pose proof (validate_all_pass Core.checkZodSchema parse req schema options
                  pd hd _ bd Hp Hh Hq Hb) as Hval.
    unfold step_order, step_event in Hval. cbn [map step_call] in Hval.
    rewrite Hparsed in Hval. fold ev_params ev_headers ev_body in Hval.
    split; [exact Hval |]. intros h.
    exact (main_after_validation Core.checkZodSchema parse validateResponse Number json
             h req schema options _ _ Hval).
Qed.

Lemma json_query_values_are_parsed_witness :
  exists rest,
    mainReqHandler Core.checkZodSchema (Core.parseJsonQueryObject literal_JSON)
      Core.validateResponse number_of json_sends (Some ok_handler) get_user
      checking_options user_request =
    [Validated Params (req_params user_request) (pathParams get_user) true;
     Validated Headers (req_headers user_request) (headers get_user) true;
     Validated Query (VObj [("active", VBool true)]) (query get_user) false;
     Validated Body (req_body user_request) (body get_user) false] ++
    HandlerInvoked {| arg_params := VObj [("id", VStr "7"); ("0", VStr "stray")];
                      arg_body := VUndefined;
                      arg_query := VObj [("active", VBool true)];
                      arg_headers := VObj [("accept", VStr "*/*")];
                      arg_files := req_files user_request;
                      arg_file := req_file user_request;
                      arg_req := user_request |} :: rest.
Proof.
  destruct (json_query_values_are_parsed Core.checkZodSchema
              (Core.parseJsonQueryObject literal_JSON) Core.validateResponse number_of
              json_sends literal_JSON user_request get_user checking_options eq_refl)
    as (_ & _ & Hscenario).
  destruct (Hscenario eq_refl eq_refl eq_refl
              (VObj [("id", VStr "7"); ("0", VStr "stray")])
              (VObj [("accept", VStr "*/*")]) VUndefined eq_refl eq_refl eq_refl)
    as [_ Hmain].
  exact (Hmain ok_handler).
Defined.

(** ** The properties on the sample requests *)

Lemma validation_short_circuits_witness :
  mainReqHandler Core.checkZodSchema (Core.parseJsonQueryObject literal_JSON)
    Core.validateResponse number_of json_sends (Some ok_handler) create_user default_options
    empty_request =
  map (step_event (Core.parseJsonQueryObject literal_JSON) create_user default_options
         empty_request) ([Params; Headers; Query] ++ [Body]) ++
  [Sent 400 (VStr "Required: name")] /\
  (forall args,
     ~ In (HandlerInvoked args)
          (mainReqHandler Core.checkZodSchema (Core.parseJsonQueryObject literal_JSON)
             Core.validateResponse number_of json_sends (Some ok_handler) create_user
             default_options empty_request)) /\
  (forall s data sh mode,
     In s [] ->
     ~ In (Validated s data sh mode)
          (mainReqHandler Core.checkZodSchema (Core.parseJsonQueryObject literal_JSON)
             Core.validateResponse number_of json_sends (Some ok_handler) create_user
             default_options empty_request)).
Proof.
  apply (validation_short_circuits Core.checkZodSchema
           (Core.parseJsonQueryObject literal_JSON) Core.validateResponse number_of
           json_sends
           (Some ok_handler) empty_request create_user default_options
           [Params; Headers; Query] Body [] (VStr "Required: name")).
  - reflexivity.
  - intros s [<- | [<- | [<- | []]]]; eexists; reflexivity.
  - reflexivity.
Defined.

Lemma handler_failure_is_forwarded_witness :
  mainReqHandler Core.checkZodSchema (Core.parseJsonQueryObject literal_JSON)
    Core.validateResponse number_of json_sends (Some failing_handler) create_user default_options
    named_request =
  named_trace default_options ++
  [HandlerInvoked (handler_args named_results named_request); NextError (VStr "boom")].
Proof.
  apply (handler_failure_is_forwarded Core.checkZodSchema
           (Core.parseJsonQueryObject literal_JSON) Core.validateResponse number_of
           json_sends
           failing_handler named_request create_user default_options
           (named_trace default_options) named_results (VStr "boom")).
  - reflexivity.
  - left. reflexivity.
Defined.

Lemma response_follows_handler_result_witness :
  mainReqHandler Core.checkZodSchema (Core.parseJsonQueryObject literal_JSON)
    Core.validateResponse number_of json_sends (Some malformed_handler) create_user
    checking_options named_request =
  (named_trace checking_options ++
   [HandlerInvoked (handler_args named_results named_request)]) ++
  [ResponseValidated (Some (ShObject [("name", ShString)])) (Integer 201)
     (VObj [("extra", VNum 1)]);
   NextError (VStr "Required: name")].
Proof.
  destruct (response_follows_handler_result Core.checkZodSchema
              (Core.parseJsonQueryObject literal_JSON) Core.validateResponse number_of
           json_sends
              malformed_handler named_request create_user checking_options
              (named_trace checking_options) named_results
              {| status := VNum 201; result_body := VObj [("extra", VNum 1)] |}
              eq_refl eq_refl) as [_ Hon].
  destruct (Hon eq_refl) as (_ & _ & _ & Hthrows).
  exact (Hthrows (VStr "Required: name") eq_refl).
Defined.

Lemma context_failure_stalls_request_witness :
  dispatch Core.checkZodSchema (Core.parseJsonQueryObject literal_JSON)
    Core.validateResponse number_of json_sends
    (ContextMiddleware (Some failing_context) create_user ::
     [MainReqHandler (Some ok_handler) create_user default_options])
    named_request =
  ([ContextCalled create_user; UnhandledRejection (VStr "boom")], named_request).
Proof.
  apply (context_failure_stalls_request Core.checkZodSchema
           (Core.parseJsonQueryObject literal_JSON) Core.validateResponse number_of
           json_sends
           failing_context create_user
           [MainReqHandler (Some ok_handler) create_user default_options]
           named_request (VStr "boom")).
  right. reflexivity.
Defined.

Lemma context_is_attached_first_witness :
  context_calls
    (fst (dispatch Core.checkZodSchema (Core.parseJsonQueryObject literal_JSON)
            Core.validateResponse number_of json_sends
            (reg_handlers create_user_registration) empty_request)) = 1 /\
  tsRest
    (snd (dispatch Core.checkZodSchema (Core.parseJsonQueryObject literal_JSON)
            Core.validateResponse number_of json_sends
            (reg_handlers create_user_registration) empty_request))
  = Some (create_user, VStr "ctx").
Proof.
  destruct (context_is_attached_first Core.checkZodSchema
              (Core.parseJsonQueryObject literal_JSON) Core.validateResponse number_of
           json_sends
              users_schema users_router default_options empty_host
              create_user_registration empty_request)
    as (route & leaf & Hchain & Hrun).
  - left. reflexivity.
  - intros [].
  - cbn zeta in Hrun. cbn in Hchain. injection Hchain as <- Hrest.
    destruct (Hrun (VStr "ctx") eq_refl) as (_ & Hcalls & _ & Hbare).
    split; [exact Hcalls |].
    apply Hbare. cbn [global_handlers default_options globalMiddleware app].
    destruct (per_route_handlers leaf) as [| h [| h' rest]];
      [reflexivity | discriminate Hrest | discriminate Hrest].
Defined.

(** * Further properties of the walker and of registration *)

Lemma lookup_app {A : Type} k (l1 l2 : list (string * A)) :
  lookup k (l1 ++ l2) =
  match lookup k l1 with
  | Some v => Some v
  | None => lookup k l2
  end.
Proof.
  induction l1 as [| [k' v] rest IH]; [reflexivity |].
  cbn [app lookup]. destruct (String.eqb k k'); [reflexivity | exact IH].
Qed.

Lemma has_handler_fn_app pre post :
  has_handler_fn (ImplRouter pre) = false ->
  has_handler_fn (ImplRouter post) = false ->
  has_handler_fn (ImplRouter (pre ++ post)) = false.
Proof.
  unfold has_handler_fn, handler_fn. rewrite lookup_app.
  destruct (lookup "handler" pre) as [[h | h mw | cs] |]; intros Hpre Hpost;
    try reflexivity; try discriminate; exact Hpost.
Qed.

Lemma each_key_app schema processRoute pre post w :
  each_key schema processRoute (pre ++ post) w =
  match each_key schema processRoute pre w with
  | (w', Done) => each_key schema processRoute post w'
  | (w', Threw e) => (w', Threw e)
  end.
Proof.
  revert w. induction pre as [| [k c] rest IH]; intros w; [reflexivity |].
  cbn [app each_key]. destruct (isAppRoute schema) as [[|] |]; try reflexivity.
  destruct (recursivelyApplyExpressRouter (schema_get schema k) c processRoute w)
    as [w' [| e]]; [apply IH | reflexivity].
Qed.

(** X1: walking an object whose keys are [pre] followed by [post] is
    walking [pre] and then, unless that threw, [post] from the host it
    left; once a key throws, no later key is visited. *)
Theorem walk_in_key_order schema processRoute pre post w :
  has_handler_fn (ImplRouter pre) = false ->
  has_handler_fn (ImplRouter post) = false ->
  recursivelyApplyExpressRouter schema (ImplRouter (pre ++ post)) processRoute w =
  match recursivelyApplyExpressRouter schema (ImplRouter pre) processRoute w with
  | (w', Done) => recursivelyApplyExpressRouter schema (ImplRouter post) processRoute w'
  | (w', Threw e) => (w', Threw e)
  end.
Proof.
  intros Hpre Hpost.
  rewrite (walk_router schema (pre ++ post) processRoute w
             (has_handler_fn_app pre post Hpre Hpost)).
  rewrite (walk_router schema pre processRoute w Hpre), each_key_app.
  destruct (each_key schema processRoute pre w) as [w' [| e]]; [| reflexivity].
  symmetry. apply walk_router. exact Hpost.
Qed.

Lemma walk_in_key_order_witness :
  recursivelyApplyExpressRouter (Some nested_schema)
    (ImplRouter ([("b", ImplFn ok_handler)] ++ [("a", ImplFn ok_handler)]))
    (processRoute_of default_options None) empty_host =
  (empty_host, Threw ExpectedAppRouteButReceivedAppRouter).
Proof.
  rewrite (walk_in_key_order (Some nested_schema) (processRoute_of default_options None)
             [("b", ImplFn ok_handler)] [("a", ImplFn ok_handler)] empty_host);
    reflexivity.
Defined.

(** X2: the walker reads the schema only under the keys of the
    implementation object: two schema Routers that agree on those keys
    give the same run, so a Route of the contract that has no
    implementation is passed over without an error. *)
Theorem unimplemented_schema_keys_are_ignored cs1 cs2 children processRoute w :
  has_handler_fn (ImplRouter children) = false ->
  (forall k, In k (keys children) -> lookup k cs1 = lookup k cs2) ->
  recursivelyApplyExpressRouter (Some (Router cs1)) (ImplRouter children) processRoute w =
  recursivelyApplyExpressRouter (Some (Router cs2)) (ImplRouter children) processRoute w.
Proof.
  intros Hplain Hagree.
  rewrite !(walk_router _ children processRoute w Hplain). clear Hplain.
  revert w. induction children as [| [k c] rest IH]; intros w; [reflexivity |].
  cbn [each_key isAppRoute schema_get].
  rewrite (Hagree k (or_introl eq_refl)).
  destruct (recursivelyApplyExpressRouter (lookup k cs2) c processRoute w)
    as [w' [| e]]; [| reflexivity].
  apply IH. intros k' Hk'. apply Hagree. right. exact Hk'.
Qed.

Lemma unimplemented_schema_keys_are_ignored_witness :
  createExpressEndpoints wider_schema nested_router default_options empty_host =
  createExpressEndpoints nested_schema nested_router default_options empty_host.
Proof.
  apply (unimplemented_schema_keys_are_ignored
           [("a", Route (sample_route "GET" "/a"));
            ("b", Router [("c", Route (sample_route "GET" "/b/c"))]);
            ("z", Route (sample_route "GET" "/z"))]
           [("a", Route (sample_route "GET" "/a"));
            ("b", Router [("c", Route (sample_route "GET" "/b/c"))])]).
  - reflexivity.
  - intros k [<- | [<- | []]]; reflexivity.
Defined.

(** X3: an object whose [handler] is callable and which has no
    [middleware] key is walked exactly as the options object
    [{ handler }]: its other keys are never visited. *)
Theorem callable_handler_makes_a_leaf schema children h options contextFunction w :
  lookup "handler" children = Some (ImplFn h) ->
  lookup "middleware" children = None ->
  recursivelyApplyExpressRouter schema (ImplRouter children)
    (processRoute_of options contextFunction) w =
  recursivelyApplyExpressRouter schema (ImplOptions h None)
    (processRoute_of options contextFunction) w.
Proof.
  intros Hh Hm.
  assert (Hleaf : is_function (ImplRouter children) || has_handler_fn (ImplRouter children)
                  = true).
  { unfold has_handler_fn, handler_fn. rewrite Hh. reflexivity. }
  rewrite (walk_leaf schema (ImplRouter children) _ w Hleaf).
  rewrite (walk_leaf schema (ImplOptions h None) _ w eq_refl).
  destruct schema as [[r | cs] |]; cbn [isAppRoute]; try reflexivity.
  unfold processRoute_of, initializeExpressRoute.
  cbn [isAppRouteImplementation is_function middleware_prop route_handler handler_fn].
  rewrite Hh, Hm. reflexivity.
Qed.

Lemma callable_handler_makes_a_leaf_witness :
  recursivelyApplyExpressRouter (Some (Route (sample_route "GET" "/a")))
    (ImplRouter [("handler", ImplFn ok_handler); ("other", ImplFn failing_handler)])
    (processRoute_of default_options None) empty_host =
  recursivelyApplyExpressRouter (Some (Route (sample_route "GET" "/a")))
    (ImplOptions ok_handler None)
    (processRoute_of default_options None) empty_host.
Proof.
  apply (callable_handler_makes_a_leaf (Some (Route (sample_route "GET" "/a")))
           [("handler", ImplFn ok_handler); ("other", ImplFn failing_handler)]
           ok_handler default_options None empty_host); reflexivity.
Defined.

Lemma initialize_outcomes implementation route options contextFunction w :
  let res := initializeExpressRoute implementation route options contextFunction w in
  console (fst res) =
  console w ++ (if logInitialization options then [log_line route] else []) /\
  (exists regs,
     registered (fst res) = registered w ++ regs /\ (List.length regs <= 1)%nat) /\
  (snd res = Done \/
   snd res = Threw TypeErrorMiddlewareNotIterable /\ registered (fst res) = registered w).
Proof.
  unfold initializeExpressRoute.
  assert (Hlog : forall w1,
             w1 = (if logInitialization options
                   then console_log (log_line route) w else w) ->
             console w1 =
             console w ++ (if logInitialization options then [log_line route] else []) /\
             registered w1 = registered w).
  { intros w1 ->. destruct (logInitialization options); cbn.
    - split; reflexivity.
    - rewrite app_nil_r. split; reflexivity. }
  destruct (Hlog _ eq_refl) as [Hc Hr].
  set (w1 := if logInitialization options then console_log (log_line route) w else w) in *.
  destruct (if isAppRouteImplementation implementation then _ else _) as [handlers |];
    cbn zeta.
  - destruct (verb_of_method (method route)) as [v |]; cbn [fst snd register console registered].
    + split; [exact Hc |]. split; [| left; reflexivity].
      eexists [_]. rewrite Hr. split; [reflexivity | apply le_n].
    + split; [exact Hc |]. split; [| left; reflexivity].
      exists []. rewrite app_nil_r. split; [exact Hr | apply le_0_n].
  - cbn [fst snd]. split; [exact Hc |]. split.
    + exists []. rewrite app_nil_r. split; [exact Hr | apply le_0_n].
    + right. split; [reflexivity | exact Hr].
Qed.

(** X4: whatever the implementation and the route, [initializeExpressRoute]
    writes its log line exactly when [logInitialization] is set, adds at
    most one registration after those already made, and either completes or
    throws on a [middleware] that cannot be spread, in which case no route
    was added although the line was logged. *)
Theorem initialize_route_effects implementation route options contextFunction w :
  let res := initializeExpressRoute implementation route options contextFunction w in
  console (fst res) =
  console w ++ (if logInitialization options then [log_line route] else []) /\
  (exists regs,
     registered (fst res) = registered w ++ regs /\ (List.length regs <= 1)%nat) /\
  (snd res = Done \/
   snd res = Threw TypeErrorMiddlewareNotIterable /\ registered (fst res) = registered w).
Proof. exact (initialize_outcomes implementation route options contextFunction w). Qed.

(** X5: for any pair of trees, matching or not, and whether or not the
    walk throws, [createExpressEndpoints] only appends: the routes and
    console lines the host had are kept in place; nothing is logged when
    [logInitialization] is off, and when it is on every new registration
    has its own log line. *)
Theorem registration_only_appends schema router options app :
  exists regs lines,
    registered (fst (createExpressEndpoints schema router options app)) =
    registered app ++ regs /\
    console (fst (createExpressEndpoints schema router options app)) =
    console app ++ lines /\
    (logInitialization options = false -> lines = []) /\
    (logInitialization options = true -> (List.length regs <= List.length lines)%nat).
Proof.
  unfold createExpressEndpoints.
  apply (walk_invariant
           (fun w => exists regs lines,
                registered w = registered app ++ regs /\
                console w = console app ++ lines /\
                (logInitialization options = false -> lines = []) /\
                (logInitialization options = true ->
                 (List.length regs <= List.length lines)%nat))).
  - intros implementation route w (regs & lines & Hr & Hc & Hoff & Hon).
    destruct (initialize_outcomes implementation route options (routerOptions router) w)
      as (Hc' & (regs' & Hr' & Hlen) & _).
    exists (regs ++ regs'),
      (lines ++ (if logInitialization options then [log_line route] else [])).
    rewrite Hr', Hr, Hc', Hc, !app_assoc. repeat split.
    + intros Hlog. rewrite Hlog, (Hoff Hlog). reflexivity.
    + intros Hlog. rewrite Hlog, !length_app. cbn [List.length].
      specialize (Hon Hlog). lia.
  - exists [], []. rewrite !app_nil_r. repeat split. intros _. apply le_n.
Qed.

Lemma walk_invariant_leaf (I : Host -> Prop) (processRoute : ProcessRoute) :
  (forall implementation route w,
     is_function implementation || has_handler_fn implementation = true ->
     I w -> I (fst (processRoute implementation route w))) ->
  forall router schema w,
    I w -> I (fst (recursivelyApplyExpressRouter schema router processRoute w)).
Proof.
  intros Hstep.
  assert (Hleaf : forall router schema w,
             is_function router || has_handler_fn router = true ->
             I w -> I (fst (recursivelyApplyExpressRouter schema router processRoute w))).
  { intros router schema w Hl Hw. rewrite (walk_leaf schema router processRoute w Hl).
    destruct schema as [[r | cs] |]; cbn [isAppRoute fst]; try exact Hw.
    apply Hstep; assumption. }
  induction router as [h | h mw | children IH] using RouterObj_tree_ind;
    intros schema w Hw; try (apply Hleaf; [reflexivity | exact Hw]).
  destruct (has_handler_fn (ImplRouter children)) eqn:Hh.
  - apply Hleaf; [exact Hh | exact Hw].
  - rewrite (walk_router schema children processRoute w Hh).
    apply each_key_invariant; assumption.
Qed.

(** X6: every chain [createExpressEndpoints] registers, for any pair of
    trees, ends in a main handler bound to a callable implementation, to
    the route it is registered for and to the options of the call: the
    walker hands [processRoute] only functions and objects whose [handler]
    is a function. *)
Theorem registered_handlers_are_callable schema router options app :
  exists regs,
    registered (fst (createExpressEndpoints schema router options app)) =
    registered app ++ regs /\
    Forall (fun reg =>
              exists h route,
                last (reg_handlers reg) (UserMiddleware (fun _ => MwEnd)) =
                MainReqHandler (Some h) route options /\
                reg_path reg = path route /\
                verb_method (reg_verb reg) = method route) regs.
Proof.
  unfold createExpressEndpoints.
  apply (walk_invariant_leaf
           (fun w => exists regs,
                registered w = registered app ++ regs /\
                Forall (fun reg =>
                          exists h route,
                            last (reg_handlers reg) (UserMiddleware (fun _ => MwEnd)) =
                            MainReqHandler (Some h) route options /\
                            reg_path reg = path route /\
                            verb_method (reg_verb reg) = method route) regs)).
  - intros implementation route w Hleaf (regs & Hr & Hall).
    assert (Hcall : exists h, route_handler implementation = Some h).
    { destruct implementation as [h | h mw | children]; cbn [route_handler].
      - exists h. reflexivity.
      - exists h. reflexivity.
      - cbn [is_function orb] in Hleaf. unfold has_handler_fn in Hleaf.
        destruct (handler_fn (ImplRouter children)) as [h |]; [| discriminate].
        exists h. reflexivity. }
    destruct Hcall as [h Hh].
    unfold initializeExpressRoute. rewrite Hh.
    destruct (if isAppRouteImplementation implementation then _ else _) as [handlers |];
      cbn zeta.
    + destruct (verb_of_method (method route)) as [v |] eqn:Hv; cbn [fst].
      * eexists (regs ++ [_]). cbn [register registered].
        destruct (logInitialization options); cbn [console_log registered];
          rewrite Hr, app_assoc; (split; [reflexivity |]);
          (apply Forall_app; split; [exact Hall |]);
          (constructor; [| constructor]);
          exists h, route; cbn [reg_handlers reg_path reg_verb];
          rewrite last_last; repeat split; apply verb_of_method_sound, Hv.
      * exists regs. split; [| exact Hall].
        destruct (logInitialization options); exact Hr.
    + exists regs. cbn [fst]. split; [| exact Hall].
      destruct (logInitialization options); exact Hr.
  - exists []. rewrite app_nil_r. split; [reflexivity | constructor].
Qed.

(** X7: the method switch is exact: a method selects a registration call
    if and only if it is, letter for letter, the upper-case name of that
    call's verb. *)
Theorem method_selects_its_verb m v :
  verb_of_method m = Some v <-> m = verb_method v.
Proof.
  split.
  - intros H. symmetry. apply verb_of_method_sound, H.
  - intros ->. destruct v; reflexivity.
Qed.

(** * Further properties of request handling *)

Section Facts.

Variable checkZodSchema : value -> option shape -> bool -> ValidationOutcome.
Variable parseJsonQueryObject : value -> value.
Variable validateResponse : option shape -> jsnumber -> value -> ResponseCheck.
Variable Number : value -> jsnumber.
Variable json : jsnumber -> value -> option value.

Local Abbreviation validate := (validateRequest checkZodSchema parseJsonQueryObject).
Local Abbreviation main := (mainReqHandler checkZodSchema parseJsonQueryObject
                              validateResponse Number json).
Local Abbreviation outcome_of := (step_outcome checkZodSchema parseJsonQueryObject).

(** X8: [validateRequest] returns results exactly when all four checks
    succeed, and the results are the data the four checks parsed, not the
    raw parts of the request. *)
Theorem validation_passes_iff_all_pass req schema options results :
  snd (validateRequest checkZodSchema parseJsonQueryObject req schema options)
  = Some results <->
  step_outcome checkZodSchema parseJsonQueryObject schema options req Params
  = Success (paramsResult results) /\
  step_outcome checkZodSchema parseJsonQueryObject schema options req Headers
  = Success (headersResult results) /\
  step_outcome checkZodSchema parseJsonQueryObject schema options req Query
  = Success (queryResult results) /\
  step_outcome checkZodSchema parseJsonQueryObject schema options req Body
  = Success (bodyResult results).
Proof.
  split.
  - intros Hsome.
    destruct (validate req schema options) as [trace r] eqn:Hval. cbn [snd] in Hsome.
    subst r.
    apply (validate_success checkZodSchema parseJsonQueryObject req schema options
             trace results Hval).
  - unfold step_outcome, validateRequest. cbn [step_call].
    intros (-> & -> & -> & ->). destruct results; reflexivity.
Qed.

(** X9: a run of the main handler ends the engine's part exactly once:
    its last event is a response call that returned or a hand-over to
    [next] with an error, and no such event occurs before it.  At most one
    call is made on the response; [next] follows such a call only when the
    call threw, and then with the error it threw; and a response sent with
    [send] always has status 400. *)
Theorem main_handler_ends_once handler schema options req :
  let trace := mainReqHandler checkZodSchema parseJsonQueryObject validateResponse
                 Number json handler schema options req in
  is_terminal (last trace NextCalled) = true /\
  List.length (filter is_terminal trace) = 1%nat /\
  (List.length (filter is_response_call trace) <= 1)%nat /\
  (forall c b e, In (JsonThrew c b e) trace -> last trace NextCalled = NextError e) /\
  (forall code b, In (Sent code b) trace -> code = 400%Z).
Proof.
  unfold mainReqHandler, validateRequest.
  repeat match goal with
         | |- context [match checkZodSchema ?a ?b ?c with _ => _ end] =>
             destruct (checkZodSchema a b c)
         end;
    try (cbn; repeat split; try apply le_n;
         [intros c b e H | intros code b H];
         repeat (destruct H as [H | H]; [try discriminate H; injection H as <- _;
                                         reflexivity |]);
         contradiction).
  destruct handler as [h |];
    [destruct (h _) as [result | e | e];
     [unfold respond, send_json; destruct (responseValidation options);
      [destruct (validateResponse _ _ _) |]; try destruct (json _ _) | |] |];
    cbn; repeat split; try apply le_n; try apply le_0_n;
    try (intros c b e' H;
         repeat (destruct H as [H | H];
                 [try discriminate H; injection H as _ _ <-; reflexivity |]);
         contradiction);
    intros code b H;
    repeat (destruct H as [H | H]; [discriminate H |]); contradiction.
Qed.

(** X10: the route implementation is called exactly once when validation
    passes, with the parsed params, body, query and headers, the request's
    [files] and [file] as they are and the request itself; it is not called
    when validation fails. *)
Theorem handler_called_once_with_parsed_data h schema options req :
  filter is_handler_call (main (Some h) schema options req) =
  match snd (validate req schema options) with
  | Some results =>
      [HandlerInvoked {| arg_params := paramsResult results;
                         arg_body := bodyResult results;
                         arg_query := queryResult results;
                         arg_headers := headersResult results;
                         arg_files := req_files req;
                         arg_file := req_file req;
                         arg_req := req |}]
  | None => []
  end.
Proof.
  unfold mainReqHandler, validateRequest.
  repeat match goal with
         | |- context [match checkZodSchema ?a ?b ?c with _ => _ end] =>
             destruct (checkZodSchema a b c)
         end; try reflexivity.
  cbn [snd app filter is_handler_call]. unfold handler_args at 1. f_equal.
  destruct (h _) as [result | e | e]; try reflexivity.
  unfold respond, send_json. destruct (responseValidation options);
    [destruct (validateResponse _ _ _) |];
    try destruct (json _ _); reflexivity.
Qed.

(** X11: the context middleware calls [next] exactly when no context
    function is declared or the declared one resolves, and the request it
    then passes on is the incoming one with [tsRest] replaced by the route
    and that context; when the context function fails nothing is passed
    on.  In no case does it respond or call [next] with an error. *)
Theorem context_middleware_only_sets_tsRest contextFunction route req :
  let res := contextMiddleware contextFunction route req in
  filter is_terminal (fst res) = [] /\
  filter is_response_call (fst res) = [] /\
  (In NextCalled (fst res) <->
   exists context, resolves contextFunction req route context) /\
  (forall req',
     snd res = Some req' <->
     exists context,
       resolves contextFunction req route context /\
       req' = set_tsRest req route context) /\
  (forall context,
     In (Attached route context) (fst res) ->
     resolves contextFunction req route context).
Proof.
  unfold contextMiddleware, resolves.
  destruct contextFunction as [f |]; [destruct (f req route) as [c | e | e] |]; cbn;
    (split; [reflexivity |]); (split; [reflexivity |]); (split; [| split]).
  - split; [intros _; exists c; reflexivity | tauto].
  - intros req'. split.
    + intros [= <-]. exists c. split; reflexivity.
    + intros (c' & [= <-] & ->). reflexivity.
  - intros context [H | [[= <-] | [H | []]]]; try discriminate H. reflexivity.
  - split; [intros [H | [H | []]]; discriminate H | intros (c & H); discriminate H].
  - intros req'. split; [discriminate | intros (c & H & _); discriminate H].
  - intros context [H | [H | []]]; discriminate H.
  - split; [intros [H | [H | []]]; discriminate H | intros (c & H); discriminate H].
  - intros req'. split; [discriminate | intros (c & H & _); discriminate H].
  - intros context [H | [H | []]]; discriminate H.
  - split; [intros _; exists VUndefined; reflexivity | tauto].
  - intros req'. split.
    + intros [= <-]. exists VUndefined. split; reflexivity.
    + intros (c' & -> & ->). reflexivity.
  - intros context [[= <-] | [H | []]]; [reflexivity | discriminate H].
Qed.

End Facts.

(** X12: with [jsonQuery] off the query is validated as the request
    carries it; [parseJsonQueryObject] has no part in the outcome. *)
Theorem raw_query_without_jsonQuery checkZodSchema parse parse' req schema options :
  jsonQuery options = false ->
  validateRequest checkZodSchema parse req schema options =
  validateRequest checkZodSchema parse' req schema options /\
  query_input parse options req = req_query req.
Proof.
  intros Hoff. unfold validateRequest, query_input. rewrite Hoff. split; reflexivity.
Qed.

Lemma raw_query_without_jsonQuery_witness :
  validateRequest Core.checkZodSchema (Core.parseJsonQueryObject literal_JSON)
    user_request get_user quiet_options =
  validateRequest Core.checkZodSchema (fun _ => VNull) user_request get_user
    quiet_options /\
  query_input (Core.parseJsonQueryObject literal_JSON) quiet_options user_request =
  req_query user_request.
Proof.
  apply (raw_query_without_jsonQuery Core.checkZodSchema
           (Core.parseJsonQueryObject literal_JSON) (fun _ => VNull)
           user_request get_user quiet_options).
  reflexivity.
Defined.

(** X13: with [responseValidation] off the handler's result is sent
    without [validateResponse] having any part in it, even when the route
    declares no shape for the status or the body does not fit it. *)
Theorem no_response_check_when_off checkZodSchema parse check check' Number json
        handler schema options req :
  responseValidation options = false ->
  mainReqHandler checkZodSchema parse check Number json handler schema options req =
  mainReqHandler checkZodSchema parse check' Number json handler schema options req.
Proof.
  intros Hoff. unfold mainReqHandler.
  destruct (validateRequest checkZodSchema parse req schema options) as [trace [r |]];
    [| reflexivity].
  destruct handler as [h |]; [| reflexivity].
  destruct (h _) as [result | e | e]; try reflexivity.
  unfold respond. rewrite Hoff. reflexivity.
Qed.

Lemma no_response_check_when_off_witness :
  mainReqHandler Core.checkZodSchema (Core.parseJsonQueryObject literal_JSON)
    Core.validateResponse number_of json_sends (Some malformed_handler) create_user
    default_options named_request =
  mainReqHandler Core.checkZodSchema (Core.parseJsonQueryObject literal_JSON)
    (fun _ _ _ => ResponseThrows VNull) number_of json_sends (Some malformed_handler)
    create_user default_options named_request.
Proof.
  apply (no_response_check_when_off Core.checkZodSchema
           (Core.parseJsonQueryObject literal_JSON) Core.validateResponse
           (fun _ _ _ => ResponseThrows VNull) number_of json_sends
           (Some malformed_handler) create_user default_options named_request).
  reflexivity.
Defined.

(** * Registration as a whole *)

Lemma routes_within_child cs k route :
  In route (routes_within (lookup k cs)) -> In route (routes_of (Router cs)).
Proof.
  destruct (lookup k cs) as [s |] eqn:Hs; [| intros []].
  cbn [routes_within routes_of]. intros Hin.
  apply in_flat_map. exists (k, s). split; [apply lookup_In, Hs | exact Hin].
Qed.

Lemma walk_routes_invariant (I : Host -> Prop) (processRoute : ProcessRoute) router :
  forall schema,
    (forall implementation route w,
       In route (routes_within schema) ->
       I w -> I (fst (processRoute implementation route w))) ->
    forall w, I w -> I (fst (recursivelyApplyExpressRouter schema router processRoute w)).
Proof.
  assert (Hleaf : forall router schema,
             (forall implementation route w,
                In route (routes_within schema) ->
                I w -> I (fst (processRoute implementation route w))) ->
             is_function router || has_handler_fn router = true ->
             forall w, I w ->
               I (fst (recursivelyApplyExpressRouter schema router processRoute w))).
  { intros r schema Hstep Hl w Hw. rewrite (walk_leaf schema r processRoute w Hl).
    destruct schema as [[route | cs] |]; cbn [isAppRoute fst]; try exact Hw.
    apply Hstep; [left; reflexivity | exact Hw]. }
  induction router as [h | h mw | children IH] using RouterObj_tree_ind;
    intros schema Hstep w Hw; try (apply Hleaf; [exact Hstep | reflexivity | exact Hw]).
  destruct (has_handler_fn (ImplRouter children)) eqn:Hh.
  - apply Hleaf; [exact Hstep | exact Hh | exact Hw].
  - rewrite (walk_router schema children processRoute w Hh). clear Hh.
    revert w Hw. induction IH as [| [k c] rest Hc _ IHrest]; intros w Hw; [exact Hw |].
    cbn [each_key]. destruct schema as [[route | cs] |]; cbn [isAppRoute]; try exact Hw.
    cbn [schema_get].
    assert (Hchild : I (fst (recursivelyApplyExpressRouter (lookup k cs) c processRoute w))).
    { apply Hc; [| exact Hw]. intros implementation route w0 Hin.
      apply Hstep. apply (routes_within_child cs k route Hin). }
    destruct (recursivelyApplyExpressRouter (lookup k cs) c processRoute w) as [w' [| e]];
      cbn [fst] in Hchild; [apply IHrest, Hchild | exact Hchild].
Qed.

(** X14: whatever the two trees, every registration
    [createExpressEndpoints] makes is for a Route of the schema it was
    given, under that Route's own method and path, and its chain starts
    with the context middleware bound to that Route and to the context
    function of the top-level router. *)
Theorem only_schema_routes_are_registered schema router options app :
  exists regs,
    registered (fst (createExpressEndpoints schema router options app)) =
    registered app ++ regs /\
    Forall (fun reg =>
              exists route,
                In route (routes_of schema) /\
                reg_path reg = path route /\
                verb_method (reg_verb reg) = method route /\
                hd_error (reg_handlers reg) =
                Some (ContextMiddleware (routerOptions router) route)) regs.
Proof.
  unfold createExpressEndpoints.
  apply (walk_routes_invariant
           (fun w => exists regs,
                registered w = registered app ++ regs /\
                Forall (fun reg =>
                          exists route,
                            In route (routes_of schema) /\
                            reg_path reg = path route /\
                            verb_method (reg_verb reg) = method route /\
                            hd_error (reg_handlers reg) =
                            Some (ContextMiddleware (routerOptions router) route)) regs)).
  - intros implementation route w Hin (regs & Hr & Hall).
    cbn [routes_within] in Hin. unfold initializeExpressRoute.
    destruct (if isAppRouteImplementation implementation then _ else _) as [handlers |]
      eqn:Hpushed; cbn zeta.
    + assert (Hhead : hd_error (handlers ++
                                  [MainReqHandler (route_handler implementation) route
                                     options]) =
                      Some (ContextMiddleware (routerOptions router) route)).
      { destruct (isAppRouteImplementation implementation);
          [| destruct (middleware_prop implementation)];
          try discriminate; injection Hpushed as <-; reflexivity. }
      destruct (verb_of_method (method route)) as [v |] eqn:Hv; cbn [fst].
      * eexists (regs ++ [_]). cbn [register registered].
        destruct (logInitialization options); cbn [console_log registered];
          rewrite Hr, app_assoc; (split; [reflexivity |]);
          (apply Forall_app; split; [exact Hall |]);
          (constructor; [| constructor]);
          exists route; cbn [reg_handlers reg_path reg_verb];
          (split; [exact Hin |]); (split; [reflexivity |]);
          (split; [apply verb_of_method_sound, Hv | exact Hhead]).
      * exists regs. split; [| exact Hall].
        destruct (logInitialization options); exact Hr.
    + exists regs. cbn [fst]. split; [| exact Hall].
      destruct (logInitialization options); exact Hr.
  - exists []. rewrite app_nil_r. split; [reflexivity | constructor].
Qed.

Lemma extend_extend regs lines regs' lines' w :
  extend regs' lines' (extend regs lines w) = extend (regs ++ regs') (lines ++ lines') w.
Proof. unfold extend. cbn. rewrite !app_assoc. reflexivity. Qed.

Lemma extend_nothing w : extend [] [] w = w.
Proof. destruct w. unfold extend. cbn. rewrite !app_nil_r. reflexivity. Qed.

Lemma uniform_const out : uniform (fun w => (w, out)).
Proof. exists [], [], out. intros w. rewrite extend_nothing. reflexivity. Qed.

Lemma initialize_uniform implementation route options contextFunction :
  uniform (initializeExpressRoute implementation route options contextFunction).
Proof.
  unfold uniform, initializeExpressRoute.
  destruct (if isAppRouteImplementation implementation then _ else _) as [handlers |];
    cbn zeta.
  - destruct (verb_of_method (method route)) as [v |].
    + eexists [_], (if logInitialization options then [log_line route] else []), Done.
      intros [regs lines]. destruct (logInitialization options); unfold extend; cbn;
        rewrite ?app_nil_r; reflexivity.
    + exists [], (if logInitialization options then [log_line route] else []), Done.
      intros [regs lines]. destruct (logInitialization options); unfold extend; cbn;
        rewrite ?app_nil_r; reflexivity.
  - exists [], (if logInitialization options then [log_line route] else []),
      (Threw TypeErrorMiddlewareNotIterable).
    intros [regs lines]. destruct (logInitialization options); unfold extend; cbn;
      rewrite ?app_nil_r; reflexivity.
Qed.

Lemma walk_uniform (processRoute : ProcessRoute) :
  (forall implementation route, uniform (processRoute implementation route)) ->
  forall router schema, uniform (recursivelyApplyExpressRouter schema router processRoute).
Proof.
  intros Hstep.
  assert (Hleaf : forall router schema,
             is_function router || has_handler_fn router = true ->
             uniform (recursivelyApplyExpressRouter schema router processRoute)).
  { intros router schema Hl.
    destruct schema as [[route | cs] |].
    - destruct (Hstep router route) as (regs & lines & out & Hrun).
      exists regs, lines, out. intros w.
      rewrite (walk_leaf (Some (Route route)) router processRoute w Hl). apply Hrun.
    - exists [], [], (Threw ExpectedAppRouteButReceivedAppRouter). intros w.
      rewrite (walk_leaf (Some (Router cs)) router processRoute w Hl), extend_nothing.
      reflexivity.
    - exists [], [], (Threw TypeErrorSchemaUndefined). intros w.
      rewrite (walk_leaf None router processRoute w Hl), extend_nothing. reflexivity. }
  induction router as [h | h mw | children IH] using RouterObj_tree_ind;
    intros schema; try (apply Hleaf; reflexivity).
  destruct (has_handler_fn (ImplRouter children)) eqn:Hh; [apply Hleaf, Hh |].
  assert (Hloop : uniform (each_key schema processRoute children)).
  { clear Hh. induction IH as [| [k c] rest Hc _ IHrest].
    - apply uniform_const.
    - unfold uniform. cbn [each_key].
      destruct (isAppRoute schema) as [[|] |]; try apply uniform_const.
      destruct (Hc (schema_get schema k)) as (regs & lines & out & Hrun).
      cbn [snd] in Hrun.
      destruct IHrest as (regs' & lines' & out' & Hrest).
      destruct out as [| e].
      + exists (regs ++ regs'), (lines ++ lines'), out'. intros w.
        rewrite Hrun, Hrest, extend_extend. reflexivity.
      + exists regs, lines, (Threw e). intros w. rewrite Hrun. reflexivity. }
  destruct Hloop as (regs & lines & out & Hrun).
  exists regs, lines, out. intros w.
  rewrite (walk_router schema children processRoute w Hh). apply Hrun.
Qed.

(** X15: what [createExpressEndpoints] adds, and whether it throws, does
    not depend on the host it is applied to: it never inspects the routes
    already registered, so a second call with the same arguments registers
    every route a second time. *)
Theorem registration_ignores_the_host schema router options :
  exists regs lines out,
    (forall app,
       createExpressEndpoints schema router options app = (extend regs lines app, out)) /\
    (forall app,
       out = Done ->
       createExpressEndpoints schema router options
         (fst (createExpressEndpoints schema router options app)) =
       (extend (regs ++ regs) (lines ++ lines) app, Done)).
Proof.
  destruct (walk_uniform
              (fun implementation innerSchema =>
                 initializeExpressRoute implementation innerSchema options
                   (routerOptions router))
              (fun implementation route =>
                 initialize_uniform implementation route options (routerOptions router))
              (tree router) (Some schema)) as (regs & lines & out & Hrun).
  exists regs, lines, out. unfold createExpressEndpoints. split; [exact Hrun |].
  intros app ->. rewrite (Hrun app). cbn [fst]. rewrite Hrun, extend_extend. reflexivity.
Qed.
